(** * Park Master Pro backend (server/server.js): a shallow embedding

    The server keeps five JSON documents on disk, mirrors one aggregate
    backup document to a remote bucket, and answers every request by a
    read-modify-write over whole documents.  The embedding follows the
    source function by function: a handler is a computation over the
    [world] (local files and the remote bucket) that either returns a
    value or throws a JavaScript error, and that keeps the effects made
    before a throw. *)

From Stdlib Require Import Ascii.
From stdpp Require Import gmap strings list fin_maps pretty.

Open Scope string_scope.
Open Scope list_scope.
Open Scope nat_scope.
Set Warnings "-register-all".

(** ** JSON values

    What [JSON.parse] and [express.json()] produce.  An object is a finite
    map from property names to values: a parsed object has no duplicate
    keys, and deep equality ignores key order, so equality of [json] values
    is deep equality.  Numbers are integers here; no handler computes with
    them, they only matter for truthiness and [===]. *)
Inductive json : Type :=
  | JNull
  | JBool (b : bool)
  | JNum (n : Z)
  | JStr (s : string)
  | JArr (items : list json)
  | JObj (props : gmap string json).

(** ** Errors and results *)

(** A thrown JavaScript error: node's file errors carry a [code], the
    others ([TypeError], [SyntaxError], storage errors) only a message. *)
Record error : Type := Error { code : option string; message : string }.

Definition TypeError : error := Error None "TypeError".

Inductive result (A : Type) : Type :=
  | Ok (a : A)
  | Throw (e : error).
Arguments Ok {A} a.
Arguments Throw {A} e.

(** ** File contents

    A file holds text.  Text written by [JSON.stringify] parses back to the
    value that was written, and nothing else about text is observed by the
    server, so a text is identified with the value it parses to;
    [Garbage msg] is any text [JSON.parse] rejects, [msg] being the message
    of the [SyntaxError]. *)
Inductive text : Type :=
  | Serialized (j : json)
  | Garbage (msg : string).

Definition JSON_stringify (j : json) : text := Serialized j.

Definition JSON_parse (t : text) : result json :=
  match t with
  | Serialized j => Ok j
  | Garbage msg => Throw (Error None msg)
  end.

(** ** The world: local files and the remote bucket *)

(** A path of the data directory names a regular file, or something every
    read and write fails on with node's error [code] (a directory, a file
    without permission). An absent path is a file that does not exist. *)
Inductive node : Type :=
  | Regular (data : text)
  | Faulty (code : string).

(** The remote object store behind the Supabase client: its objects by key,
    and, during an outage, the message of the error every call reports. *)
Record bucket : Type := Bucket {
  objects : gmap string text;
  outage : option string
}.

(** [supabase] is the source's client: [None] when the credentials are
    absent ([null] in the source), otherwise the bucket it talks to. *)
Record world : Type := World {
  files : gmap string node;
  supabase : option bucket
}.

(** ** Computations: state and exceptions *)

Definition M (A : Type) : Type := world → result A * world.

Definition ret {A} (a : A) : M A := λ w, (Ok a, w).
Definition throw {A} (e : error) : M A := λ w, (Throw e, w).
Definition bind {A B} (m : M A) (k : A → M B) : M B :=
  λ w, match m w with
       | (Ok a, w') => k a w'
       | (Throw e, w') => (Throw e, w')
       end.
Definition try_catch {A} (m : M A) (handler : error → M A) : M A :=
  λ w, match m w with
       | (Ok a, w') => (Ok a, w')
       | (Throw e, w') => handler e w'
       end.
Definition lift {A} (r : result A) : M A := λ w, (r, w).

Notation "'do' x <- m ; k" := (bind m (λ x, k))
  (at level 10, x name, m at level 100, k at level 200,
   format "'[v' 'do'  x  <-  m ; '/' k ']'").
Notation "'await' m ; k" := (bind m (λ _, k))
  (at level 10, m at level 100, k at level 200,
   format "'[v' 'await'  m ; '/' k ']'").

(** ** Data file paths *)

Definition VEHICLES_FILE : string := "vehicles.json".
Definition PERMANENT_CLIENTS_FILE : string := "permanent-clients.json".
Definition SETTINGS_FILE : string := "settings.json".
Definition DAILY_STATS_FILE : string := "daily-stats.json".
Definition BACKUP_FILE : string := "backup.json".

(** ** fs.readFile and fs.writeFile *)

Definition ENOENT : error := Error (Some "ENOENT") "ENOENT: no such file or directory".

Definition fs_readFile (filePath : string) : M text :=
  λ w, match files w !! filePath with
       | None => (Throw ENOENT, w)
       | Some (Regular data) => (Ok data, w)
       | Some (Faulty c) => (Throw (Error (Some c) c), w)
       end.

Definition fs_writeFile (filePath : string) (data : text) : M unit :=
  λ w, match files w !! filePath with
       | Some (Faulty c) => (Throw (Error (Some c) c), w)
       | _ => (Ok tt, World (<[filePath := Regular data]> (files w)) (supabase w))
       end.

(** ** Helper functions for file operations (server.js 40-55) *)

Definition writeJsonFile (filePath : string) (data : json) : M unit :=
  fs_writeFile filePath (JSON_stringify data).

Definition readJsonFile (filePath : string) (defaultValue : json) : M json :=
  try_catch
    (do data <- fs_readFile filePath;
     lift (JSON_parse data))
    (λ error,
       if bool_decide (code error = Some "ENOENT") then
         await writeJsonFile filePath defaultValue;
         ret defaultValue
       else throw error).

(** ** JavaScript values and operators

    A value held by a variable is a JSON value or [undefined] ([None]). *)
Definition value : Type := option json.

(** Property access [v.k].  It throws on [null] and [undefined]; on an
    object it looks the own property up; the property names of the source
    ([id], [date], [fee], [credentials], ...) are no built-in property of
    arrays, strings, numbers or booleans, which therefore give
    [undefined]. *)
Definition get (v : value) (k : string) : result value :=
  match v with
  | None | Some JNull => Throw TypeError
  | Some (JObj props) => Ok (props !! k)
  | Some _ => Ok None
  end.

(** Truthiness, as tested by [if (v)] and [v || d]. *)
Definition truthy (v : value) : bool :=
  match v with
  | None | Some JNull | Some (JBool false) | Some (JNum 0%Z) | Some (JStr "") => false
  | Some _ => true
  end.

(** [a === b] for operands that come from two different parses (a stored
    document and a request): primitives are compared by value, and no
    array or object is identical to another one. *)
Definition strict_equals (a b : value) : bool :=
  match a, b with
  | None, None => true
  | Some JNull, Some JNull => true
  | Some (JBool x), Some (JBool y) => bool_decide (x = y)
  | Some (JNum x), Some (JNum y) => bool_decide (x = y)
  | Some (JStr x), Some (JStr y) => bool_decide (x = y)
  | _, _ => false
  end.

(** Own enumerable properties copied by a spread [{...v}]: the properties
    of an object, the elements of an array under their indices, the
    characters of a string under theirs (one per byte here, which is exact
    for ASCII), and nothing for the other values. *)
Definition spread (v : value) : gmap string json :=
  match v with
  | Some (JObj props) => props
  | Some (JArr items) => list_to_map (imap (λ i x, (pretty i, x)) items)
  | Some (JStr s) =>
      list_to_map (imap (λ i c, (pretty i, JStr (String c ""))) (String.list_ascii_of_string s))
  | _ => ∅
  end.

(** A property written in an object literal, [{..., k: v}].  A property
    whose value is [undefined] is left out by [JSON.stringify], which every
    object a handler builds goes through (into a file and into the
    response), so it is dropped here. *)
Definition set_prop (k : string) (v : value) (props : gmap string json) : gmap string json :=
  match v with
  | Some x => <[k := x]> props
  | None => delete k props
  end.

(** An object literal with defined properties. *)
Definition object (l : list (string * json)) : json := JObj (list_to_map l).

(** The receiver of an array method: calling [findIndex], [push] or
    [filter] on anything that is not an array is a [TypeError]. *)
Definition as_array (v : json) : result (list json) :=
  match v with
  | JArr items => Ok items
  | _ => Throw TypeError
  end.

(** [Array.prototype.findIndex]: the first index whose element satisfies
    the predicate, [None] for [-1]; an exception of the predicate aborts
    the scan. *)
Fixpoint findIndex (pred : json → result bool) (items : list json) : result (option nat) :=
  match items with
  | [] => Ok None
  | x :: rest =>
      match pred x with
      | Throw e => Throw e
      | Ok true => Ok (Some 0)
      | Ok false =>
          match findIndex pred rest with
          | Ok (Some i) => Ok (Some (S i))
          | r => r
          end
      end
  end.

(** [Array.prototype.filter] with a predicate that may throw. *)
Fixpoint filter_array (pred : json → result bool) (items : list json) : result (list json) :=
  match items with
  | [] => Ok []
  | x :: rest =>
      match pred x with
      | Throw e => Throw e
      | Ok keep =>
          match filter_array pred rest with
          | Ok kept => Ok (if keep then x :: kept else kept)
          | Throw e => Throw e
          end
      end
  end.

(** The predicate [x => x.k === v]. *)
Definition prop_is (k : string) (v : value) (x : json) : result bool :=
  match get (Some x) k with
  | Ok xv => Ok (strict_equals xv v)
  | Throw e => Throw e
  end.

(** The predicate [x => x.k !== v]. *)
Definition prop_is_not (k : string) (v : value) (x : json) : result bool :=
  match get (Some x) k with
  | Ok xv => Ok (negb (strict_equals xv v))
  | Throw e => Throw e
  end.

(** ** The regular expression of the download helper

    [/Object not found|not found/i.test(s)]: [s] contains "not found",
    letters compared without case. *)
Definition to_lower (c : ascii) : ascii :=
  let n := nat_of_ascii c in
  if (65 <=? n)%nat && (n <=? 90)%nat then ascii_of_nat (n + 32) else c.

Fixpoint lower_case (s : string) : string :=
  match s with
  | EmptyString => EmptyString
  | String c rest => String (to_lower c) (lower_case rest)
  end.

Fixpoint includes (needle hay : string) : bool :=
  String.prefix needle hay ||
  match hay with
  | EmptyString => false
  | String _ rest => includes needle rest
  end.

Definition not_found_test (s : string) : bool := includes "not found" (lower_case s).

(** ** The storage client (external)

    [supabase.storage.from(SUPABASE_BUCKET).upload(key, payload, {upsert: true})]
    and [.download(key)] answer with an object [{data, error}].  An upload
    replaces the object under the key; a download of a missing key answers
    with the error "Object not found"; during an outage every call answers
    with the outage's error. *)
Definition storage_upload (key : string) (payload : text) : M (option error) :=
  λ w, match supabase w with
       | None => (Throw TypeError, w)
       | Some b =>
           match outage b with
           | Some msg => (Ok (Some (Error None msg)), w)
           | None =>
               (Ok None,
                World (files w) (Some (Bucket (<[key := payload]> (objects b)) None)))
           end
       end.

Definition storage_download (key : string) : M (option text * option error) :=
  λ w, match supabase w with
       | None => (Throw TypeError, w)
       | Some b =>
           match outage b with
           | Some msg => (Ok (None, Some (Error None msg)), w)
           | None =>
               match objects b !! key with
               | Some t => (Ok (Some t, None), w)
               | None => (Ok (None, Some (Error None "Object not found")), w)
               end
           end
       end.

(** ** Supabase helpers (server.js 58-93) *)

(** The object the two helpers return: [{ok, reason, data, error}], absent
    properties being [None]. *)
Record mirror_result : Type := MirrorResult {
  ok : bool;
  reason : option string;
  data : value;
  error_string : option string
}.

Definition uploadBackupToSupabase (backupData : json) : M mirror_result :=
  λ w,
    if supabase w is None
    then (Ok (MirrorResult false (Some "supabase_not_configured") None None), w)
    else
      try_catch
        (let payload := JSON_stringify backupData in
         do error <- storage_upload "backup.json" payload;
         match error with
         | Some e => throw e
         | None => ret (MirrorResult true None None None)
         end)
        (λ err,
           ret (MirrorResult false (Some "upload_failed") None (Some (message err))))
        w.

Definition downloadBackupFromSupabase : M mirror_result :=
  λ w,
    if supabase w is None
    then (Ok (MirrorResult false (Some "supabase_not_configured") None None), w)
    else
      try_catch
        (do response <- storage_download "backup.json";
         match response with
         | (_, Some e) => throw e
         | (None, None) => throw TypeError
         | (Some text, None) =>
             do json <- lift (JSON_parse text);
             ret (MirrorResult true None (Some json) None)
         end)
        (λ err,
           if negb (bool_decide (message err = "")) && not_found_test (message err)
           then ret (MirrorResult false (Some "not_found") None None)
           else ret (MirrorResult false (Some "download_failed") None (Some (message err))))
        w.

(** ** Default settings (server.js 96-108) *)

Definition pricing_entry (baseHours baseFee extraHourFee : Z) : json :=
  object [("baseHours", JNum baseHours); ("baseFee", JNum baseFee);
          ("extraHourFee", JNum extraHourFee)].

Definition defaultSettings : json :=
  object [
    ("siteName", JStr "Park Master Pro");
    ("pricing", object [
       ("car", pricing_entry 2 50 25);
       ("bike", pricing_entry 2 20 10);
       ("rickshaw", pricing_entry 2 30 15)]);
    ("credentials", object [
       ("username", JStr "admin");
       ("password", JStr "admin123")]);
    ("viewMode", JStr "grid")
  ].

(** ** Responses *)

(** What [res.status(s).json(v)] sends; [res.json(v)] has status 200. *)
Record response : Type := Response { status : nat; body : value }.

Definition res_json (v : value) : response := Response 200 v.
Definition res_status_json (s : nat) (v : json) : response := Response s (Some v).

(** [v || d] where [d] is an object literal. *)
Definition or_else (v : value) (d : json) : value :=
  if truthy v then v else Some d.

(** [if (v) await k(v)]. *)
Definition when_truthy (v : value) (k : json → M unit) : M unit :=
  match v with
  | Some j => if truthy v then k j else ret tt
  | None => ret tt
  end.

Definition and_then {A B} (r : result A) (k : A → result B) : result B :=
  match r with
  | Ok a => k a
  | Throw e => Throw e
  end.

(** ** Routes (server.js 113-330)

    A handler receives the parsed request body, the route parameter and the
    clock readings it makes ([Date.now().toString()], [new Date().toISOString()])
    as arguments, and returns the response it sends. *)

Definition error_body (msg : string) : json := object [("error", JStr msg)].

(** POST /api/auth/login *)
Definition post_login (req_body : json) : M response :=
  try_catch
    (do username <- lift (get (Some req_body) "username");
     do password <- lift (get (Some req_body) "password");
     do settings <- readJsonFile SETTINGS_FILE defaultSettings;
     do credentials <- lift (get (Some settings) "credentials");
     do stored_username <- lift (get credentials "username");
     if strict_equals username stored_username then
       do stored_password <- lift (get credentials "password");
       if strict_equals password stored_password then
         ret (res_json (Some (object [("success", JBool true);
                                      ("message", JStr "Login successful")])))
       else
         ret (res_status_json 401 (object [("success", JBool false);
                                           ("message", JStr "Invalid credentials")]))
     else
       ret (res_status_json 401 (object [("success", JBool false);
                                         ("message", JStr "Invalid credentials")])))
    (λ _, ret (res_status_json 500 (object [("success", JBool false);
                                            ("message", JStr "Server error")]))).

(** GET /api/vehicles *)
Definition get_vehicles : M response :=
  try_catch
    (do vehicles <- readJsonFile VEHICLES_FILE (JArr []);
     ret (res_json (Some vehicles)))
    (λ _, ret (res_status_json 500 (error_body "Failed to fetch vehicles"))).

(** POST /api/vehicles *)
Definition post_vehicles (req_body : json) (id entryTime : string) : M response :=
  try_catch
    (do vehicles <- readJsonFile VEHICLES_FILE (JArr []);
     let newVehicle :=
       JObj (<["entryTime" := JStr entryTime]>
               (<["id" := JStr id]> (spread (Some req_body)))) in
     do items <- lift (as_array vehicles);
     await writeJsonFile VEHICLES_FILE (JArr (items ++ [newVehicle]));
     ret (res_json (Some newVehicle)))
    (λ _, ret (res_status_json 500 (error_body "Failed to add vehicle"))).

(** PUT /api/vehicles/:id/exit *)
Definition put_vehicle_exit (id : string) (req_body : json) (exitTime : string) : M response :=
  try_catch
    (do vehicles <- readJsonFile VEHICLES_FILE (JArr []);
     do items <- lift (as_array vehicles);
     do vehicleIndex <- lift (findIndex (prop_is "id" (Some (JStr id))) items);
     match vehicleIndex with
     | None => ret (res_status_json 404 (error_body "Vehicle not found"))
     | Some i =>
         do fee <- lift (get (Some req_body) "fee");
         let updated :=
           JObj (set_prop "fee" fee
                   (<["exitTime" := JStr exitTime]> (spread (items !! i)))) in
         let items' := <[i := updated]> items in
         await writeJsonFile VEHICLES_FILE (JArr items');
         ret (res_json (items' !! i))
     end)
    (λ _, ret (res_status_json 500 (error_body "Failed to update vehicle"))).

(** GET /api/permanent-clients *)
Definition get_permanent_clients : M response :=
  try_catch
    (do clients <- readJsonFile PERMANENT_CLIENTS_FILE (JArr []);
     ret (res_json (Some clients)))
    (λ _, ret (res_status_json 500 (error_body "Failed to fetch permanent clients"))).

(** POST /api/permanent-clients *)
Definition post_permanent_clients (req_body : json) (id entryTime : string) : M response :=
  try_catch
    (do clients <- readJsonFile PERMANENT_CLIENTS_FILE (JArr []);
     let newClient :=
       JObj (<["entryTime" := JStr entryTime]>
               (<["paymentStatus" := JStr "unpaid"]>
                  (<["isPermanent" := JBool true]>
                     (<["id" := JStr id]> (spread (Some req_body)))))) in
     do items <- lift (as_array clients);
     await writeJsonFile PERMANENT_CLIENTS_FILE (JArr (items ++ [newClient]));
     ret (res_json (Some newClient)))
    (λ _, ret (res_status_json 500 (error_body "Failed to add permanent client"))).

(** PUT /api/permanent-clients/:id.  In [{...a, ...b}] the properties of
    [b] win: the union of maps prefers its left operand. *)
Definition put_permanent_client (id : string) (req_body : json) : M response :=
  try_catch
    (do clients <- readJsonFile PERMANENT_CLIENTS_FILE (JArr []);
     do items <- lift (as_array clients);
     do clientIndex <- lift (findIndex (prop_is "id" (Some (JStr id))) items);
     match clientIndex with
     | None => ret (res_status_json 404 (error_body "Client not found"))
     | Some i =>
         let merged := JObj (spread (Some req_body) ∪ spread (items !! i)) in
         let items' := <[i := merged]> items in
         await writeJsonFile PERMANENT_CLIENTS_FILE (JArr items');
         ret (res_json (items' !! i))
     end)
    (λ _, ret (res_status_json 500 (error_body "Failed to update permanent client"))).

(** DELETE /api/permanent-clients/:id *)
Definition delete_permanent_client (id : string) : M response :=
  try_catch
    (do clients <- readJsonFile PERMANENT_CLIENTS_FILE (JArr []);
     do items <- lift (as_array clients);
     do filteredClients <- lift (filter_array (prop_is_not "id" (Some (JStr id))) items);
     await writeJsonFile PERMANENT_CLIENTS_FILE (JArr filteredClients);
     ret (res_json (Some (object [("success", JBool true)]))))
    (λ _, ret (res_status_json 500 (error_body "Failed to remove permanent client"))).

(** GET /api/settings *)
Definition get_settings : M response :=
  try_catch
    (do settings <- readJsonFile SETTINGS_FILE defaultSettings;
     ret (res_json (Some settings)))
    (λ _, ret (res_status_json 500 (error_body "Failed to fetch settings"))).

(** PUT /api/settings *)
Definition put_settings (req_body : json) : M response :=
  try_catch
    (await writeJsonFile SETTINGS_FILE req_body;
     ret (res_json (Some req_body)))
    (λ _, ret (res_status_json 500 (error_body "Failed to update settings"))).

(** GET /api/daily-stats *)
Definition get_daily_stats : M response :=
  try_catch
    (do stats <- readJsonFile DAILY_STATS_FILE (JArr []);
     ret (res_json (Some stats)))
    (λ _, ret (res_status_json 500 (error_body "Failed to fetch daily stats"))).

(** The predicate [s => s.date === req.body.date]: both property reads
    happen at each element, the element's first. *)
Definition same_date_as (req_body : json) (s : json) : result bool :=
  and_then (get (Some s) "date") (λ s_date,
  and_then (get (Some req_body) "date") (λ body_date,
  Ok (strict_equals s_date body_date))).

(** POST /api/daily-stats *)
Definition post_daily_stats (req_body : json) : M response :=
  try_catch
    (do stats <- readJsonFile DAILY_STATS_FILE (JArr []);
     do items <- lift (as_array stats);
     do existingIndex <- lift (findIndex (same_date_as req_body) items);
     let items' :=
       match existingIndex with
       | Some i => <[i := req_body]> items
       | None => (items ++ [req_body])%list
       end in
     await writeJsonFile DAILY_STATS_FILE (JArr items');
     ret (res_json (Some req_body)))
    (λ _, ret (res_status_json 500 (error_body "Failed to update daily stats"))).

(** GET /api/health *)
Definition get_health (timestamp : string) : M response :=
  ret (res_json (Some (object [("status", JStr "OK"); ("timestamp", JStr timestamp)]))).

(** POST /api/backup *)
Definition post_backup (req_body : json) : M response :=
  try_catch
    (let backupData := req_body in
     await writeJsonFile BACKUP_FILE backupData;
     do vehicles <- lift (get (Some backupData) "vehicles");
     await when_truthy vehicles (writeJsonFile VEHICLES_FILE);
     do permanentClients <- lift (get (Some backupData) "permanentClients");
     await when_truthy permanentClients (writeJsonFile PERMANENT_CLIENTS_FILE);
     do settings <- lift (get (Some backupData) "settings");
     await when_truthy settings (writeJsonFile SETTINGS_FILE);
     do dailyStats <- lift (get (Some backupData) "dailyStats");
     await when_truthy dailyStats (writeJsonFile DAILY_STATS_FILE);
     do up <- uploadBackupToSupabase backupData;
     ret (res_json (Some (object [("success", JBool true); ("supabase", JBool (ok up))]))))
    (λ _, ret (res_status_json 500 (error_body "Failed to save backup"))).

(** GET /api/backup *)
Definition get_backup : M response :=
  try_catch
    (do down <- downloadBackupFromSupabase;
     if ok down then
       ret (res_json (or_else (data down) (JObj ∅)))
     else
       do backupData <- readJsonFile BACKUP_FILE (JObj ∅);
       ret (res_json (or_else (Some backupData) (JObj ∅))))
    (λ _, ret (res_status_json 500 (error_body "Failed to load backup"))).

(** ** Start-up restore (server.js 341-360)

    The part of [startServer] that touches the documents: the best-effort
    restore from the remote backup, whose exceptions are caught. *)
Definition startServer : M unit :=
  try_catch
    (do down <- downloadBackupFromSupabase;
     match data down with
     | Some b =>
         if ok down && truthy (Some b) then
           do vehicles <- lift (get (Some b) "vehicles");
           await when_truthy vehicles (writeJsonFile VEHICLES_FILE);
           do permanentClients <- lift (get (Some b) "permanentClients");
           await when_truthy permanentClients (writeJsonFile PERMANENT_CLIENTS_FILE);
           do settings <- lift (get (Some b) "settings");
           await when_truthy settings (writeJsonFile SETTINGS_FILE);
           do dailyStats <- lift (get (Some b) "dailyStats");
           await when_truthy dailyStats (writeJsonFile DAILY_STATS_FILE);
           writeJsonFile BACKUP_FILE b
         else ret tt
     | None => ret tt
     end)
    (λ _, ret tt).

(** ** The API as a transition system *)

Inductive request : Type :=
  | PostLogin (req_body : json)
  | GetVehicles
  | PostVehicles (req_body : json) (id entryTime : string)
  | PutVehicleExit (id : string) (req_body : json) (exitTime : string)
  | GetPermanentClients
  | PostPermanentClients (req_body : json) (id entryTime : string)
  | PutPermanentClient (id : string) (req_body : json)
  | DeletePermanentClient (id : string)
  | GetSettings
  | PutSettings (req_body : json)
  | GetDailyStats
  | PostDailyStats (req_body : json)
  | GetHealth (timestamp : string)
  | PostBackup (req_body : json)
  | GetBackup.

Definition handle (r : request) : M response :=
  match r with
  | PostLogin b => post_login b
  | GetVehicles => get_vehicles
  | PostVehicles b id t => post_vehicles b id t
  | PutVehicleExit id b t => put_vehicle_exit id b t
  | GetPermanentClients => get_permanent_clients
  | PostPermanentClients b id t => post_permanent_clients b id t
  | PutPermanentClient id b => put_permanent_client id b
  | DeletePermanentClient id => delete_permanent_client id
  | GetSettings => get_settings
  | PutSettings b => put_settings b
  | GetDailyStats => get_daily_stats
  | PostDailyStats b => post_daily_stats b
  | GetHealth t => get_health t
  | PostBackup b => post_backup b
  | GetBackup => get_backup
  end.

(** The response to a request and the world it leaves. *)
Definition respond (r : request) (w : world) : result response * world := handle r w.

(** ** Vocabulary of the properties *)

(** A write to the path can succeed: the path does not name a faulty node. *)
Definition writable (w : world) (filePath : string) : bool :=
  match files w !! filePath with
  | Some (Faulty _) => false
  | _ => true
  end.

(** The five documents of the data directory. *)
Definition data_files : list string :=
  [BACKUP_FILE; VEHICLES_FILE; PERMANENT_CLIENTS_FILE; SETTINGS_FILE; DAILY_STATS_FILE].

(** A collection as a request sees it: what reading the document with the
    empty list as default returns. *)
Definition collection (filePath : string) (w : world) : result json :=
  fst (readJsonFile filePath (JArr []) w).

(** A record of a collection is a JSON object. *)
Definition is_record (v : json) : bool :=
  match v with
  | JObj _ => true
  | _ => false
  end.

(** The files after [if (v) await writeJsonFile(filePath, v)]. *)
Definition write_if_truthy (filePath : string) (v : value) (fs : gmap string node)
    : gmap string node :=
  match v with
  | Some j => if truthy v then <[filePath := Regular (Serialized j)]> fs else fs
  | None => fs
  end.

(** The live document of each optional field of a backup snapshot. *)
Definition live_documents : list (string * string) :=
  [("vehicles", VEHICLES_FILE); ("permanentClients", PERMANENT_CLIENTS_FILE);
   ("settings", SETTINGS_FILE); ("dailyStats", DAILY_STATS_FILE)].

(** The files after the local writes of a backup save. *)
Definition save_locally (snapshot : gmap string json) (fs : gmap string node)
    : gmap string node :=
  write_if_truthy DAILY_STATS_FILE (snapshot !! "dailyStats")
    (write_if_truthy SETTINGS_FILE (snapshot !! "settings")
       (write_if_truthy PERMANENT_CLIENTS_FILE (snapshot !! "permanentClients")
          (write_if_truthy VEHICLES_FILE (snapshot !! "vehicles")
             (<[BACKUP_FILE := Regular (Serialized (JObj snapshot))]> fs)))).

(** What both mirror helpers return when the client is [null]. *)
Definition not_configured_result : mirror_result :=
  MirrorResult false (Some "supabase_not_configured") None None.

(** The mirror is configured and reachable: an upload will succeed. *)
Definition mirror_available (w : world) : bool :=
  match supabase w with
  | Some b => bool_decide (outage b = None)
  | None => false
  end.

(** The body of a successful backup save. *)
Definition backup_saved (flag : bool) : json :=
  object [("success", JBool true); ("supabase", JBool flag)].

(** The document cannot be read: its path is faulty or its content is
    not JSON. *)
Definition unreadable (w : world) (filePath : string) : Prop :=
  (∃ c, files w !! filePath = Some (Faulty c))
  ∨ (∃ msg, files w !! filePath = Some (Regular (Garbage msg))).

(** The value of property [k] of an element of a collection, [undefined]
    when the element is not an object. *)
Definition prop_of (k : string) (x : json) : value :=
  match x with
  | JObj props => props !! k
  | _ => None
  end.

(** The record has the identifier [id]. *)
Definition has_id (id : string) (x : json) : bool :=
  strict_equals (prop_of "id" x) (Some (JStr id)).

(** Two records have the same date, as [===] compares their [date]
    properties. *)
Definition same_date (a b : json) : bool :=
  strict_equals (prop_of "date" a) (prop_of "date" b).

(** The record is the one of the calendar date [d]. *)
Definition has_date (d : string) (s : json) : bool :=
  strict_equals (prop_of "date" s) (Some (JStr d)).

(** The number of records of a collection for the date [d]. *)
Fixpoint count_date (d : string) (items : list json) : nat :=
  match items with
  | [] => 0
  | s :: rest => (if has_date d s then 1 else 0) + count_date d rest
  end.

(** At most one record per date: no calendar date is the date of two
    records. *)
Definition one_record_per_date (items : list json) : Prop :=
  ∀ d, count_date d items ≤ 1.

(** The calendar dates of the records of a collection, in order. *)
Fixpoint string_dates (items : list json) : list string :=
  match items with
  | [] => []
  | s :: rest =>
      match prop_of "date" s with
      | Some (JStr d) => d :: string_dates rest
      | _ => string_dates rest
      end
  end.

(** Insert-or-replace by date: the first record with the date of [record]
    is replaced, and without one [record] is appended. *)
Definition upsert (record : json) (items : list json) : list json :=
  match list_find (λ s, same_date s record = true) items with
  | Some (i, _) => <[i := record]> items
  | None => items ++ [record]
  end.

(** The answer of the login route to an exception. *)
Definition server_error : response :=
  res_status_json 500 (object [("success", JBool false); ("message", JStr "Server error")]).

(** The answer of the login route to a mismatch. *)
Definition invalid_credentials : response :=
  res_status_json 401 (object [("success", JBool false);
                               ("message", JStr "Invalid credentials")]).

(** The daily-stats collection has at most one record per date. *)
Definition stats_invariant (w : world) : Prop :=
  ∀ items, collection DAILY_STATS_FILE w = Ok (JArr items) → one_record_per_date items.

(** A document that can become the daily-stats document respects the
    dates: if it is an array, it has at most one record per date. *)
Definition stats_ok (j : json) : Prop :=
  ∀ items, j = JArr items → one_record_per_date items.

(** The [dailyStats] of a backup snapshot respects the dates. *)
Definition snapshot_respects_dates (snapshot : json) : Prop :=
  ∀ j, prop_of "dailyStats" snapshot = Some j → stats_ok j.

(** The snapshot held by the remote mirror, if any, respects the dates. *)
Definition remote_respects_dates (w : world) : Prop :=
  ∀ b j, supabase w = Some b → objects b !! "backup.json" = Some (Serialized j) →
         snapshot_respects_dates j.

(** What happens to a server: it starts (and restores from the mirror) or
    it serves a request. *)
Inductive event : Type :=
  | Start
  | Call (r : request).

Definition step (w : world) (e : event) : world :=
  match e with
  | Start => snd (startServer w)
  | Call r => snd (respond r w)
  end.

Definition run (events : list event) (w : world) : world := foldl step w events.

(** The snapshot of a backup save respects the dates; other events carry
    no snapshot. *)
Definition event_respects_dates (e : event) : Prop :=
  match e with
  | Call (PostBackup snapshot) => snapshot_respects_dates snapshot
  | _ => True
  end.

(** The invariant of the transition system: the local collection and the
    remote snapshot both respect the dates. *)
Definition dates_invariant (w : world) : Prop :=
  stats_invariant w ∧ remote_respects_dates w.

(** A computation keeps the invariant, whether it returns or throws. *)
Definition keeps {A} (m : M A) : Prop :=
  ∀ w, dates_invariant w → dates_invariant (snd (m w)).

(** ** Sample data *)

Module Sample.
Definition fresh : world := World ∅ None.

Definition car : json :=
  object [("id", JStr "1700000000001"); ("plate", JStr "LEA-1234");
          ("entryTime", JStr "2024-01-01T08:00:00.000Z")].
Definition bike : json :=
  object [("id", JStr "1700000000002"); ("plate", JStr "LEB-77");
          ("entryTime", JStr "2024-01-01T09:30:00.000Z")].

Definition client : json :=
  object [("id", JStr "1700000000003"); ("name", JStr "Ali");
          ("isPermanent", JBool true); ("paymentStatus", JStr "unpaid")].

Definition monday : json := object [("date", JStr "2024-01-01"); ("cars", JNum 12)].
Definition tuesday : json := object [("date", JStr "2024-01-02"); ("cars", JNum 7)].

Definition snapshot : gmap string json :=
  list_to_map [("vehicles", JArr [car; bike]); ("permanentClients", JArr [client]);
               ("settings", defaultSettings); ("dailyStats", JArr [monday; tuesday])].

Definition older_snapshot : gmap string json :=
  list_to_map [("vehicles", JArr [car]); ("permanentClients", JArr []);
               ("settings", defaultSettings); ("dailyStats", JArr [monday])].

(** A server whose mirror holds [snapshot] and whose local backup
    document is [older_snapshot]. *)
Definition mirrored : world :=
  World {[BACKUP_FILE := Regular (Serialized (JObj older_snapshot))]}
        (Some (Bucket {["backup.json" := Serialized (JObj snapshot)]} None)).

(** The same server while the mirror is unreachable. *)
Definition cut_off : world :=
  World {[BACKUP_FILE := Regular (Serialized (JObj older_snapshot))]}
        (Some (Bucket {["backup.json" := Serialized (JObj snapshot)]}
                      (Some "fetch failed"))).

(** A server with two parked vehicles, one client and one day of stats. *)
Definition busy : world :=
  World (list_to_map
           [(VEHICLES_FILE, Regular (Serialized (JArr [car; bike])));
            (PERMANENT_CLIENTS_FILE, Regular (Serialized (JArr [client])));
            (DAILY_STATS_FILE, Regular (Serialized (JArr [monday])))])
        None.

(** Settings without credentials. *)
Definition bare_settings : gmap string json :=
  list_to_map [("siteName", JStr "Lot 7"); ("viewMode", JStr "list")].
End Sample.

(** * Properties *)

(** ** The model on sample requests *)

Example login_with_default_settings :
  fst (post_login (object [("username", JStr "admin"); ("password", JStr "admin123")])
         Sample.fresh) =
    Ok (res_json (Some (object [("success", JBool true);
                                ("message", JStr "Login successful")]))).
Proof. vm_compute. reflexivity. Qed.

Example login_with_wrong_password :
  fst (post_login (object [("username", JStr "admin"); ("password", JStr "admin")])
         Sample.fresh) = Ok invalid_credentials.
Proof. vm_compute. reflexivity. Qed.

Example login_materializes_settings :
  files (snd (post_login (object []) Sample.fresh)) !! SETTINGS_FILE =
    Some (Regular (Serialized defaultSettings)).
Proof. vm_compute. reflexivity. Qed.

Example first_vehicle :
  post_vehicles (object [("plate", JStr "LEA-1234")]) "1700000000001"
    "2024-01-01T08:00:00.000Z" Sample.fresh =
    (Ok (res_json (Some Sample.car)),
     World {[VEHICLES_FILE := Regular (Serialized (JArr [Sample.car]))]} None).
Proof. vm_compute. reflexivity. Qed.

Example exit_of_unknown_vehicle :
  put_vehicle_exit "42" (object [("fee", JNum 20)]) "2024-01-01T11:45:00.000Z" Sample.busy =
    (Ok (res_status_json 404 (error_body "Vehicle not found")), Sample.busy).
Proof. vm_compute. reflexivity. Qed.

Example delete_of_unknown_client :
  delete_permanent_client "42" Sample.busy =
    (Ok (res_json (Some (object [("success", JBool true)]))), Sample.busy).
Proof. vm_compute. reflexivity. Qed.

Example vehicles_of_a_corrupt_file :
  fst (get_vehicles (World {[VEHICLES_FILE := Regular (Garbage "Unexpected token")]} None)) =
    Ok (res_status_json 500 (error_body "Failed to fetch vehicles")).
Proof. vm_compute. reflexivity. Qed.

Example spread_of_an_array :
  spread (Some (JArr [JStr "a"; JStr "b"])) = list_to_map [("0", JStr "a"); ("1", JStr "b")].
Proof. vm_compute. reflexivity. Qed.

Example not_found_test_samples :
  not_found_test "Object not found" = true
  ∧ not_found_test "The resource was NOT FOUND" = true
  ∧ not_found_test "fetch failed" = false
  ∧ not_found_test "" = false.
Proof. vm_compute. auto. Qed.

Example download_from_an_empty_bucket :
  fst (downloadBackupFromSupabase (World ∅ (Some (Bucket ∅ None)))) =
    Ok (MirrorResult false (Some "not_found") None None).
Proof. vm_compute. reflexivity. Qed.

Example download_during_an_outage :
  fst (downloadBackupFromSupabase Sample.cut_off) =
    Ok (MirrorResult false (Some "download_failed") None (Some "fetch failed")).
Proof. vm_compute. reflexivity. Qed.

Example upload_replaces_the_remote_object :
  snd (uploadBackupToSupabase (JObj Sample.older_snapshot) Sample.mirrored) =
    World (files Sample.mirrored)
          (Some (Bucket {["backup.json" := Serialized (JObj Sample.older_snapshot)]} None)).
Proof. vm_compute. reflexivity. Qed.

Example restore_at_startup :
  files (snd (startServer Sample.mirrored)) !! DAILY_STATS_FILE =
    Some (Regular (Serialized (JArr [Sample.monday; Sample.tuesday])))
  ∧ files (snd (startServer Sample.mirrored)) !! BACKUP_FILE =
      Some (Regular (Serialized (JObj Sample.snapshot))).
Proof. vm_compute. auto. Qed.

Example no_restore_during_an_outage :
  snd (startServer Sample.cut_off) = Sample.cut_off.
Proof. vm_compute. reflexivity. Qed.

(** ** The document store *)

(** The contract of the JSON codec that the model of file contents builds
    in: what was written parses back to the value written. *)
Lemma JSON_parse_stringify (j : json) : JSON_parse (JSON_stringify j) = Ok j.
Proof. reflexivity. Qed.

Section DocumentStore.
Variables (filePath : string) (w : world).

Lemma writeJsonFile_writable (j : json) :
  writable w filePath = true →
  writeJsonFile filePath j w =
    (Ok tt, World (<[filePath := Regular (Serialized j)]> (files w)) (supabase w)).
Proof.
  unfold writable, writeJsonFile, fs_writeFile, JSON_stringify.
  destruct (files w !! filePath) as [[|]|]; done.
Qed.

Lemma writeJsonFile_faulty (j : json) (c : string) :
  files w !! filePath = Some (Faulty c) →
  writeJsonFile filePath j w = (Throw (Error (Some c) c), w).
Proof. unfold writeJsonFile, fs_writeFile. by intros ->. Qed.

Lemma readJsonFile_stored (j defaultValue : json) :
  files w !! filePath = Some (Regular (Serialized j)) →
  readJsonFile filePath defaultValue w = (Ok j, w).
Proof. unfold readJsonFile, try_catch, bind, fs_readFile. by intros ->. Qed.

Lemma readJsonFile_garbage (msg : string) (defaultValue : json) :
  files w !! filePath = Some (Regular (Garbage msg)) →
  readJsonFile filePath defaultValue w = (Throw (Error None msg), w).
Proof. unfold readJsonFile, try_catch, bind, fs_readFile. by intros ->. Qed.

Lemma readJsonFile_faulty (c : string) (defaultValue : json) :
  files w !! filePath = Some (Faulty c) →
  readJsonFile filePath defaultValue w = (Throw (Error (Some c) c), w).
Proof.
  intros Hf. unfold readJsonFile, try_catch, bind, fs_readFile. rewrite Hf. simpl.
  case_bool_decide; [|done].
  by rewrite (writeJsonFile_faulty _ c).
Qed.

Lemma readJsonFile_missing (defaultValue : json) :
  files w !! filePath = None →
  readJsonFile filePath defaultValue w =
    (Ok defaultValue,
     World (<[filePath := Regular (Serialized defaultValue)]> (files w)) (supabase w)).
Proof.
  intros Hf. unfold readJsonFile, try_catch, bind, fs_readFile. rewrite Hf. simpl.
  rewrite writeJsonFile_writable; [done|]. unfold writable. by rewrite Hf.
Qed.
End DocumentStore.

(** C5. Reading a document whose file does not exist returns the default
    and writes the default to the file, after which any read returns that
    same document and changes nothing; an error of the read other than
    ENOENT, and the error of parsing malformed content, reach the caller
    as they were thrown. *)
Theorem readJsonFile_materializes_default (filePath : string) (defaultValue : json) (w : world) :
  (files w !! filePath = None →
     ∃ w', readJsonFile filePath defaultValue w = (Ok defaultValue, w')
           ∧ files w' !! filePath = Some (Regular (JSON_stringify defaultValue))
           ∧ (∀ p, p ≠ filePath → files w' !! p = files w !! p)
           ∧ ∀ d, readJsonFile filePath d w' = (Ok defaultValue, w'))
  ∧ (∀ e, fs_readFile filePath w = (Throw e, w) → code e ≠ Some "ENOENT" →
       readJsonFile filePath defaultValue w = (Throw e, w))
  ∧ (∀ t e, fs_readFile filePath w = (Ok t, w) → JSON_parse t = Throw e →
       readJsonFile filePath defaultValue w = (Throw e, w)).
Proof.
  split; [|split].
  - intros Hmissing. eexists. split; [by apply readJsonFile_missing|].
    simpl. split; [by rewrite lookup_insert_eq|]. split.
    + intros p Hp. by rewrite lookup_insert_ne.
    + intros d. apply readJsonFile_stored. simpl. by rewrite lookup_insert_eq.
  - intros e Hread Hcode. unfold readJsonFile, try_catch, bind. rewrite Hread.
    by rewrite bool_decide_eq_false_2.
  - intros t e Hread Hparse. unfold readJsonFile, try_catch, bind, lift.
    rewrite Hread, Hparse.
    destruct t as [j|msg]; simpl in Hparse; [done|].
    injection Hparse as <-. done.
Qed.

(** ** The remote backup mirror *)

Lemma upload_not_configured (backupData : json) (w : world) :
  supabase w = None →
  uploadBackupToSupabase backupData w = (Ok not_configured_result, w).
Proof. unfold uploadBackupToSupabase. by intros ->. Qed.

Lemma download_not_configured (w : world) :
  supabase w = None →
  downloadBackupFromSupabase w = (Ok not_configured_result, w).
Proof. unfold downloadBackupFromSupabase. by intros ->. Qed.

(** A download never throws and changes nothing. *)
Lemma download_total (w : world) :
  ∃ down, downloadBackupFromSupabase w = (Ok down, w).
Proof.
  unfold downloadBackupFromSupabase, try_catch, bind, storage_download, lift, ret, throw.
  destruct (supabase w) as [b|]; [|by eexists].
  destruct (outage b) as [msg|]; simpl.
  - destruct (_ && _); by eexists.
  - destruct (objects b !! "backup.json") as [[j|msg]|]; simpl;
      try destruct (_ && _); by eexists.
Qed.

(** An upload never throws and leaves the local files alone. *)
Lemma upload_total (backupData : json) (w : world) :
  ∃ up w', uploadBackupToSupabase backupData w = (Ok up, w') ∧ files w' = files w.
Proof.
  unfold uploadBackupToSupabase, try_catch, bind, storage_upload, ret, throw.
  destruct (supabase w) as [b|]; [|by eexists _, _].
  destruct (outage b); by eexists _, _.
Qed.

(** C4, as amended. Without credentials both mirror operations return
    [{ok: false, reason: 'supabase_not_configured'}] as an ordinary value,
    throw nothing and change nothing. *)
Theorem mirror_disabled_without_credentials (backupData : json) (w : world) :
  supabase w = None →
  uploadBackupToSupabase backupData w = (Ok not_configured_result, w)
  ∧ downloadBackupFromSupabase w = (Ok not_configured_result, w)
  ∧ ok not_configured_result = false
  ∧ reason not_configured_result = Some "supabase_not_configured".
Proof.
  intros Hs. split; [by apply upload_not_configured|].
  split; [by apply download_not_configured|done].
Qed.

(** C4, as stated, fails: the reason the helpers report is not the string
    "not_configured". *)
Lemma mirror_reason_is_not_not_configured :
  ¬ (∀ (backupData : json) (w : world), supabase w = None →
       ∃ up down,
         fst (uploadBackupToSupabase backupData w) = Ok up
         ∧ fst (downloadBackupFromSupabase w) = Ok down
         ∧ ok up = false ∧ reason up = Some "not_configured"
         ∧ ok down = false ∧ reason down = Some "not_configured").
Proof.
  intros Hclaim.
  destruct (Hclaim JNull (World ∅ None) eq_refl) as (up & down & Hup & _ & _ & Hreason & _).
  simpl in Hup. injection Hup as <-. discriminate Hreason.
Qed.

(** ** Backup save and load *)

Lemma writable_insert (w : world) (p q : string) (t : text) (s : option bucket) :
  writable w q = true →
  writable (World (<[p := Regular t]> (files w)) s) q = true.
Proof.
  unfold writable. simpl. destruct (decide (p = q)) as [->|Hne].
  - by rewrite lookup_insert_eq.
  - by rewrite lookup_insert_ne.
Qed.

Lemma writable_write_if_truthy (w : world) (p q : string) (v : value) (s : option bucket) :
  writable w q = true →
  writable (World (write_if_truthy p v (files w)) s) q = true.
Proof.
  intros Hq. unfold write_if_truthy. destruct v as [j|]; [|done].
  destruct (truthy (Some j)); [by apply writable_insert|done].
Qed.

Lemma when_truthy_write (filePath : string) (v : value) (w : world) :
  writable w filePath = true →
  when_truthy v (writeJsonFile filePath) w =
    (Ok tt, World (write_if_truthy filePath v (files w)) (supabase w)).
Proof.
  intros Hw. unfold when_truthy, write_if_truthy, ret. destruct v as [j|].
  - destruct (truthy (Some j)); [by apply writeJsonFile_writable|by destruct w].
  - by destruct w.
Qed.

Lemma lookup_write_if_truthy (p q : string) (v : value) (fs : gmap string node) :
  p ≠ q → write_if_truthy p v fs !! q = fs !! q.
Proof.
  intros Hne. unfold write_if_truthy. destruct v as [j|]; [|done].
  destruct (truthy (Some j)); [by rewrite lookup_insert_ne|done].
Qed.

Lemma lookup_write_if_truthy_eq (p : string) (v : value) (fs : gmap string node) :
  write_if_truthy p v fs !! p =
    if truthy v then Regular ∘ Serialized <$> v else fs !! p.
Proof.
  unfold write_if_truthy. destruct v as [j|]; [|done].
  destruct (truthy (Some j)); [by rewrite lookup_insert_eq|done].
Qed.

Lemma forallb_data_files (f : string → bool) :
  forallb f data_files = true →
  f BACKUP_FILE = true ∧ f VEHICLES_FILE = true ∧ f PERMANENT_CLIENTS_FILE = true
  ∧ f SETTINGS_FILE = true ∧ f DAILY_STATS_FILE = true.
Proof. simpl. rewrite !andb_true_iff. tauto. Qed.

(** What a backup save does when the local writes can succeed: the local
    writes, then the upload, whose outcome only sets the flag. *)
Lemma post_backup_eval (snapshot : gmap string json) (w : world) :
  forallb (writable w) data_files = true →
  ∃ up w',
    uploadBackupToSupabase (JObj snapshot)
      (World (save_locally snapshot (files w)) (supabase w)) = (Ok up, w')
    ∧ post_backup (JObj snapshot) w = (Ok (res_json (Some (backup_saved (ok up)))), w').
Proof.
  intros (Hb & Hv & Hc & Hs & Hd)%forallb_data_files.
  destruct (upload_total (JObj snapshot)
              (World (save_locally snapshot (files w)) (supabase w)))
    as (up & w' & Hup & _).
  exists up, w'. split; [done|].
  unfold post_backup, try_catch, bind at 1.
  rewrite writeJsonFile_writable by done.
  unfold bind at 1, lift, get. unfold bind at 1.
  rewrite when_truthy_write by by apply writable_insert.
  unfold bind at 1, lift, get. unfold bind at 1.
  rewrite when_truthy_write
    by by apply (writable_write_if_truthy (World _ _)), writable_insert.
  unfold bind at 1, lift, get. unfold bind at 1.
  rewrite when_truthy_write
    by by do 2 apply (writable_write_if_truthy (World _ _)); apply writable_insert.
  unfold bind at 1, lift, get. unfold bind at 1.
  rewrite when_truthy_write
    by by do 3 apply (writable_write_if_truthy (World _ _)); apply writable_insert.
  unfold bind, ret. simpl. fold (save_locally snapshot (files w)).
  by rewrite Hup.
Qed.

Lemma upload_flag (backupData : json) (w w' : world) (up : mirror_result) :
  uploadBackupToSupabase backupData w = (Ok up, w') →
  ok up = mirror_available w.
Proof.
  unfold uploadBackupToSupabase, mirror_available, try_catch, bind, storage_upload, ret, throw.
  destruct (supabase w) as [b|]; [|by intros [= <- _]].
  destruct (outage b); intros [= <- _]; done.
Qed.

Lemma lookup_save_locally_backup (snapshot : gmap string json) (fs : gmap string node) :
  save_locally snapshot fs !! BACKUP_FILE = Some (Regular (Serialized (JObj snapshot))).
Proof.
  unfold save_locally. rewrite !lookup_write_if_truthy by done.
  by rewrite lookup_insert_eq.
Qed.

Lemma lookup_save_locally_live (snapshot : gmap string json) (fs : gmap string node)
    (field filePath : string) :
  (field, filePath) ∈ live_documents →
  save_locally snapshot fs !! filePath =
    if truthy (snapshot !! field)
    then Regular ∘ Serialized <$> snapshot !! field
    else fs !! filePath.
Proof.
  unfold live_documents, save_locally. rewrite !elem_of_cons, elem_of_nil.
  intros [[= -> ->]|[[= -> ->]|[[= -> ->]|[[= -> ->]|[]]]]].
  - rewrite !(lookup_write_if_truthy _ VEHICLES_FILE) by done.
    rewrite lookup_write_if_truthy_eq. by rewrite lookup_insert_ne.
  - rewrite !(lookup_write_if_truthy _ PERMANENT_CLIENTS_FILE) by done.
    rewrite lookup_write_if_truthy_eq.
    rewrite !(lookup_write_if_truthy _ PERMANENT_CLIENTS_FILE) by done.
    by rewrite lookup_insert_ne.
  - rewrite !(lookup_write_if_truthy _ SETTINGS_FILE) by done.
    rewrite lookup_write_if_truthy_eq.
    rewrite !(lookup_write_if_truthy _ SETTINGS_FILE) by done.
    by rewrite lookup_insert_ne.
  - rewrite lookup_write_if_truthy_eq.
    rewrite !(lookup_write_if_truthy _ DAILY_STATS_FILE) by done.
    by rewrite lookup_insert_ne.
Qed.

Lemma lookup_save_locally_other (snapshot : gmap string json) (fs : gmap string node)
    (p : string) :
  p ∉ data_files → save_locally snapshot fs !! p = fs !! p.
Proof.
  unfold data_files, save_locally. rewrite !not_elem_of_cons.
  intros (? & ? & ? & ? & ? & _).
  rewrite !lookup_write_if_truthy by done. by rewrite lookup_insert_ne.
Qed.

(** C3, as amended. When the local writes can succeed, a backup save
    answers [{success: true, supabase: flag}] whatever the remote push
    does, the flag telling whether the push succeeded; it writes the
    snapshot verbatim to the backup document; it overwrites the live
    document of exactly those of the four fields whose value in the
    snapshot is truthy, with that value, and leaves the live documents of
    the other fields, and every other file, as they were. *)
Theorem post_backup_frame (snapshot : gmap string json) (w : world) :
  forallb (writable w) data_files = true →
  ∃ w',
    post_backup (JObj snapshot) w =
      (Ok (res_json (Some (backup_saved (mirror_available w)))), w')
    ∧ files w' !! BACKUP_FILE = Some (Regular (JSON_stringify (JObj snapshot)))
    ∧ (∀ field filePath, (field, filePath) ∈ live_documents →
         files w' !! filePath =
           if truthy (snapshot !! field)
           then Regular ∘ JSON_stringify <$> snapshot !! field
           else files w !! filePath)
    ∧ (∀ p, p ∉ data_files → files w' !! p = files w !! p).
Proof.
  intros Hw. destruct (post_backup_eval snapshot w Hw) as (up & w' & Hup & Hpost).
  exists w'. rewrite Hpost, (upload_flag _ _ _ _ Hup).
  destruct (upload_total (JObj snapshot)
              (World (save_locally snapshot (files w)) (supabase w)))
    as (up' & w'' & Hup' & Hfiles).
  rewrite Hup in Hup'. injection Hup' as _ <-. simpl in Hfiles. rewrite Hfiles.
  split; [done|]. split; [apply lookup_save_locally_backup|].
  split; [apply lookup_save_locally_live|apply lookup_save_locally_other].
Qed.

(** C3, as stated, fails: a field that is present in the snapshot with the
    value [null] does not overwrite its live document. *)
Lemma post_backup_skips_present_null_field :
  ¬ (∀ (snapshot : gmap string json) (w : world),
       forallb (writable w) data_files = true →
       ∀ field filePath, (field, filePath) ∈ live_documents →
         files (snd (post_backup (JObj snapshot) w)) !! filePath =
           match snapshot !! field with
           | Some v => Some (Regular (JSON_stringify v))
           | None => files w !! filePath
           end).
Proof.
  intros Hclaim.
  specialize (Hclaim {["vehicles" := JNull]} (World ∅ None) eq_refl
                "vehicles" VEHICLES_FILE).
  vm_compute in Hclaim.
  specialize (Hclaim ltac:(by left)). discriminate Hclaim.
Qed.

Lemma get_backup_remote (w : world) (down : mirror_result) :
  downloadBackupFromSupabase w = (Ok down, w) → ok down = true →
  get_backup w = (Ok (res_json (or_else (data down) (JObj ∅))), w).
Proof. intros Hd Hok. unfold get_backup, try_catch, bind. by rewrite Hd, Hok. Qed.

Lemma get_backup_local (w : world) (down : mirror_result) (j : json) :
  downloadBackupFromSupabase w = (Ok down, w) → ok down = false →
  files w !! BACKUP_FILE = Some (Regular (Serialized j)) →
  get_backup w = (Ok (res_json (or_else (Some j) (JObj ∅))), w).
Proof.
  intros Hd Hok Hf. unfold get_backup, try_catch, bind. rewrite Hd, Hok.
  by rewrite (readJsonFile_stored _ _ j).
Qed.

(** C1. With no remote mirror configured and local writes that can
    succeed, saving a snapshot and then loading the backup returns the
    snapshot: in particular for a snapshot with all four fields
    populated. *)
Theorem backup_round_trip (snapshot : gmap string json) (w : world) :
  supabase w = None →
  forallb (writable w) data_files = true →
  ∃ w1 w2,
    post_backup (JObj snapshot) w = (Ok (res_json (Some (backup_saved false))), w1)
    ∧ get_backup w1 = (Ok (res_json (Some (JObj snapshot))), w2).
Proof.
  intros Hs Hw. destruct (post_backup_eval snapshot w Hw) as (up & w1 & Hup & Hpost).
  rewrite upload_not_configured in Hup by done. injection Hup as <- <-.
  eexists _, _. split; [exact Hpost|].
  rewrite (get_backup_local _ not_configured_result (JObj snapshot)); [done| |done|].
  - by apply download_not_configured.
  - apply lookup_save_locally_backup.
Qed.

Lemma download_success (w : world) (b : bucket) (j : json) :
  supabase w = Some b → outage b = None →
  objects b !! "backup.json" = Some (Serialized j) →
  downloadBackupFromSupabase w = (Ok (MirrorResult true None (Some j) None), w).
Proof.
  intros Hs Ho Hobj.
  unfold downloadBackupFromSupabase, try_catch, bind, storage_download.
  by rewrite Hs, Ho, Hobj.
Qed.

(** C2. Whatever the local backup document is, a load whose pull succeeds
    returns the remote snapshot. A load whose pull fails, for whatever
    reason, returns the local backup document, or the empty object when
    the file does not exist; it always answers, and answers with an error
    only when the local backup document itself cannot be read. *)
Theorem get_backup_precedence_and_fallback (w : world) (down : mirror_result) :
  downloadBackupFromSupabase w = (Ok down, w) →
  (∀ remote, ok down = true → data down = Some (JObj remote) →
     get_backup w = (Ok (res_json (Some (JObj remote))), w))
  ∧ (ok down = false →
       (∀ local, files w !! BACKUP_FILE = Some (Regular (Serialized (JObj local))) →
          get_backup w = (Ok (res_json (Some (JObj local))), w))
       ∧ (files w !! BACKUP_FILE = None →
            fst (get_backup w) = Ok (res_json (Some (JObj ∅))))
       ∧ ∃ resp, fst (get_backup w) = Ok resp
                 ∧ (status resp ≠ 200 → unreadable w BACKUP_FILE)).
Proof.
  intros Hd. split.
  - intros remote Hok Hdata. rewrite (get_backup_remote w down Hd Hok).
    by rewrite Hdata.
  - intros Hok. split; [|split].
    + intros local Hf. by rewrite (get_backup_local w down (JObj local)).
    + intros Hf. unfold get_backup, try_catch, bind. rewrite Hd, Hok.
      by rewrite readJsonFile_missing.
    + unfold get_backup, try_catch, bind. rewrite Hd, Hok.
      destruct (files w !! BACKUP_FILE) as [[[j|msg]|c]|] eqn:Hf.
      * rewrite (readJsonFile_stored _ _ j) by done. eexists. by split.
      * rewrite (readJsonFile_garbage _ _ msg) by done. eexists. split; [done|].
        intros _. right. by exists msg.
      * rewrite (readJsonFile_faulty _ _ c) by done. eexists. split; [done|].
        intros _. left. by exists c.
      * rewrite readJsonFile_missing by done. eexists. by split.
Qed.

(** ** Scanning a collection *)

Lemma strict_equals_str (a : value) (s : string) :
  strict_equals a (Some (JStr s)) = true ↔ a = Some (JStr s).
Proof.
  destruct a as [[| | |s'| |]|]; simpl; try (split; congruence).
  rewrite bool_decide_eq_true. split; congruence.
Qed.

Lemma has_id_record (id : string) (x : json) :
  has_id id x = true ↔ ∃ props, x = JObj props ∧ props !! "id" = Some (JStr id).
Proof.
  unfold has_id. rewrite strict_equals_str. split.
  - destruct x; simpl; try discriminate. eauto.
  - by intros (props & -> & ?).
Qed.

Lemma get_record (x : json) (k : string) :
  is_record x = true → get (Some x) k = Ok (prop_of k x).
Proof. by destruct x. Qed.

(** On elements the predicate does not throw on, [findIndex] is the search
    for the first element that satisfies it. *)
Lemma findIndex_list_find (pred : json → result bool) (p : json → bool) (items : list json) :
  Forall (λ x, pred x = Ok (p x)) items →
  findIndex pred items = Ok (fst <$> list_find (λ x, p x = true) items).
Proof.
  induction 1 as [|x items Hx _ IH]; [done|].
  simpl. rewrite Hx, IH.
  destruct (p x); simpl; [done|].
  by destruct (list_find _ items) as [[i y]|].
Qed.

Lemma findIndex_prop_is (k : string) (v : value) (items : list json) :
  forallb is_record items = true →
  findIndex (prop_is k v) items =
    Ok (fst <$> list_find (λ x, strict_equals (prop_of k x) v = true) items).
Proof.
  intros Hrec. apply (findIndex_list_find _ (λ x, strict_equals (prop_of k x) v)).
  apply Forall_forall. intros x Hx. unfold prop_is.
  rewrite get_record; [done|].
  rewrite forallb_forall in Hrec. by apply Hrec, list_elem_of_In.
Qed.

(** A collection that can be read is, after the read, stored in its file. *)
Lemma collection_read (filePath : string) (w : world) (j : json) :
  collection filePath w = Ok j →
  ∃ w1, readJsonFile filePath (JArr []) w = (Ok j, w1)
        ∧ files w1 !! filePath = Some (Regular (Serialized j))
        ∧ (∀ p, p ≠ filePath → files w1 !! p = files w !! p)
        ∧ supabase w1 = supabase w.
Proof.
  unfold collection.
  destruct (files w !! filePath) as [[[j'|msg]|c]|] eqn:Hf.
  - rewrite (readJsonFile_stored _ _ j') by done. intros [= ->]. by exists w.
  - by rewrite (readJsonFile_garbage _ _ msg).
  - by rewrite (readJsonFile_faulty _ _ c).
  - rewrite readJsonFile_missing by done. intros [= <-]. eexists. split; [done|].
    simpl. split; [by rewrite lookup_insert_eq|].
    split; [|done]. intros p Hp. by rewrite lookup_insert_ne.
Qed.

Lemma collection_stored (filePath : string) (w : world) (j : json) :
  files w !! filePath = Some (Regular (Serialized j)) →
  collection filePath w = Ok j.
Proof. intros Hf. unfold collection. by rewrite (readJsonFile_stored _ _ j). Qed.

Lemma writable_stored (filePath : string) (w : world) (t : text) :
  files w !! filePath = Some (Regular t) → writable w filePath = true.
Proof. unfold writable. by intros ->. Qed.

Lemma lookup_set_prop (k : string) (v : value) (props : gmap string json) :
  set_prop k v props !! k = v.
Proof.
  destruct v; simpl; [by rewrite lookup_insert_eq|by rewrite lookup_delete_eq].
Qed.

Lemma lookup_set_prop_ne (k k' : string) (v : value) (props : gmap string json) :
  k ≠ k' → set_prop k v props !! k' = props !! k'.
Proof.
  intros Hne. destruct v; simpl; [by rewrite lookup_insert_ne|by rewrite lookup_delete_ne].
Qed.

(** ** Updating one record of a collection *)

(** C6. On a vehicles collection of records: when no record has the
    identifier, the exit answers 404 and the collection is as before; when
    some record has it, the answer is the record of one position with
    [exitTime] set to the time of the request and [fee] to the fee of the
    payload, its other properties kept, and the collection differs from
    the one before at that position only. *)
Theorem vehicle_exit_updates_one_record (w : world) (items : list json) (id : string)
    (payload : gmap string json) (exitTime : string) :
  collection VEHICLES_FILE w = Ok (JArr items) →
  forallb is_record items = true →
  ((∀ v, v ∈ items → has_id id v = false) →
     fst (put_vehicle_exit id (JObj payload) exitTime w) =
       Ok (res_status_json 404 (error_body "Vehicle not found"))
     ∧ collection VEHICLES_FILE (snd (put_vehicle_exit id (JObj payload) exitTime w)) =
         Ok (JArr items))
  ∧ ((∃ v, v ∈ items ∧ has_id id v = true) →
     ∃ i old new items',
       items !! i = Some (JObj old) ∧ old !! "id" = Some (JStr id)
       ∧ new !! "exitTime" = Some (JStr exitTime)
       ∧ new !! "fee" = payload !! "fee"
       ∧ (∀ k, k ≠ "exitTime" → k ≠ "fee" → new !! k = old !! k)
       ∧ fst (put_vehicle_exit id (JObj payload) exitTime w) = Ok (res_json (Some (JObj new)))
       ∧ collection VEHICLES_FILE (snd (put_vehicle_exit id (JObj payload) exitTime w)) =
           Ok (JArr items')
       ∧ length items' = length items
       ∧ items' !! i = Some (JObj new)
       ∧ ∀ j, j ≠ i → items' !! j = items !! j).
Proof.
  intros (w1 & Hread & Hstored & _ & _)%collection_read Hrec.
  assert (Heval : put_vehicle_exit id (JObj payload) exitTime w =
    match list_find (λ x, has_id id x = true) items with
    | None => (Ok (res_status_json 404 (error_body "Vehicle not found")), w1)
    | Some (i, _) =>
        let updated := JObj (set_prop "fee" (payload !! "fee")
                        (<["exitTime" := JStr exitTime]> (spread (items !! i)))) in
        (Ok (res_json (<[i := updated]> items !! i)),
         World (<[VEHICLES_FILE := Regular (Serialized (JArr (<[i := updated]> items)))]>
                  (files w1)) (supabase w1))
    end).
  { unfold put_vehicle_exit, try_catch, bind at 1. rewrite Hread.
    unfold bind at 1, lift, as_array. unfold bind at 1.
    rewrite findIndex_prop_is by done. fold (has_id id).
    destruct (list_find _ items) as [[i x]|]; simpl; [|done].
    unfold bind at 1. unfold bind.
    rewrite writeJsonFile_writable by by eapply writable_stored. done. }
  rewrite Heval. clear Heval. split.
  - intros Hnone.
    assert (list_find (λ x, has_id id x = true) items = None) as ->.
    { apply list_find_None, Forall_forall. intros x Hx. rewrite Hnone; done. }
    simpl. split; [done|]. by apply collection_stored.
  - intros (v & Hv & Hid).
    destruct (list_find_elem_of (λ x, has_id id x = true) items v Hv Hid)
      as [[i x] Hfind].
    rewrite Hfind.
    apply list_find_Some in Hfind as (Hi & (old & -> & Hold)%has_id_record & _).
    rewrite Hi. simpl spread.
    exists i, old, (set_prop "fee" (payload !! "fee") (<["exitTime" := JStr exitTime]> old)),
      (<[i := JObj (set_prop "fee" (payload !! "fee") (<["exitTime" := JStr exitTime]> old))]> items).
    split; [done|]. split; [done|].
    split; [|split; [|split; [|split; [|split; [|split; [|split]]]]]].
    + rewrite lookup_set_prop_ne by done. by rewrite lookup_insert_eq.
    + apply lookup_set_prop.
    + intros k Hk1 Hk2. rewrite lookup_set_prop_ne by done. by rewrite lookup_insert_ne.
    + simpl. rewrite list_lookup_insert_eq; [done|]. by eapply lookup_lt_Some.
    + apply collection_stored. simpl. by rewrite lookup_insert_eq.
    + by rewrite length_insert.
    + rewrite list_lookup_insert_eq; [done|]. by eapply lookup_lt_Some.
    + intros j Hj. by rewrite list_lookup_insert_ne.
Qed.

(** C9. On a permanent-clients collection of records: when no record has
    the identifier, the update answers 404 and the collection is as
    before; when some record has it, the answer is the record of one
    position merged with the payload (a property of the payload
    overwrites, a property absent from the payload keeps its value), and
    the collection differs from the one before at that position only. *)
Theorem permanent_client_update_merges (w : world) (items : list json) (id : string)
    (payload : gmap string json) :
  collection PERMANENT_CLIENTS_FILE w = Ok (JArr items) →
  forallb is_record items = true →
  ((∀ c, c ∈ items → has_id id c = false) →
     fst (put_permanent_client id (JObj payload) w) =
       Ok (res_status_json 404 (error_body "Client not found"))
     ∧ collection PERMANENT_CLIENTS_FILE (snd (put_permanent_client id (JObj payload) w)) =
         Ok (JArr items))
  ∧ ((∃ c, c ∈ items ∧ has_id id c = true) →
     ∃ i old new items',
       items !! i = Some (JObj old) ∧ old !! "id" = Some (JStr id)
       ∧ (∀ k v, payload !! k = Some v → new !! k = Some v)
       ∧ (∀ k, payload !! k = None → new !! k = old !! k)
       ∧ fst (put_permanent_client id (JObj payload) w) = Ok (res_json (Some (JObj new)))
       ∧ collection PERMANENT_CLIENTS_FILE (snd (put_permanent_client id (JObj payload) w)) =
           Ok (JArr items')
       ∧ length items' = length items
       ∧ items' !! i = Some (JObj new)
       ∧ ∀ j, j ≠ i → items' !! j = items !! j).
Proof.
  intros (w1 & Hread & Hstored & _ & _)%collection_read Hrec.
  assert (Heval : put_permanent_client id (JObj payload) w =
    match list_find (λ x, has_id id x = true) items with
    | None => (Ok (res_status_json 404 (error_body "Client not found")), w1)
    | Some (i, _) =>
        let merged := JObj (payload ∪ spread (items !! i)) in
        (Ok (res_json (<[i := merged]> items !! i)),
         World (<[PERMANENT_CLIENTS_FILE :=
                    Regular (Serialized (JArr (<[i := merged]> items)))]>
                  (files w1)) (supabase w1))
    end).
  { unfold put_permanent_client, try_catch, bind at 1. rewrite Hread.
    unfold bind at 1, lift, as_array. unfold bind at 1.
    rewrite findIndex_prop_is by done. fold (has_id id).
    destruct (list_find _ items) as [[i x]|]; simpl; [|done].
    unfold bind.
    rewrite writeJsonFile_writable by by eapply writable_stored. done. }
  rewrite Heval. clear Heval. split.
  - intros Hnone.
    assert (list_find (λ x, has_id id x = true) items = None) as ->.
    { apply list_find_None, Forall_forall. intros x Hx. rewrite Hnone; done. }
    simpl. split; [done|]. by apply collection_stored.
  - intros (c & Hc & Hid).
    destruct (list_find_elem_of (λ x, has_id id x = true) items c Hc Hid)
      as [[i x] Hfind].
    rewrite Hfind.
    apply list_find_Some in Hfind as (Hi & (old & -> & Hold)%has_id_record & _).
    rewrite Hi. simpl spread.
    exists i, old, (payload ∪ old), (<[i := JObj (payload ∪ old)]> items).
    split; [done|]. split; [done|].
    split; [|split; [|split; [|split; [|split; [|split]]]]].
    + intros k v Hk. by apply lookup_union_Some_l.
    + intros k Hk. by apply lookup_union_r.
    + simpl. rewrite list_lookup_insert_eq; [done|]. by eapply lookup_lt_Some.
    + apply collection_stored. simpl. by rewrite lookup_insert_eq.
    + by rewrite length_insert.
    + rewrite list_lookup_insert_eq; [done|]. by eapply lookup_lt_Some.
    + intros j Hj. by rewrite list_lookup_insert_ne.
Qed.

(** ** Daily stats: upsert by date *)

Lemma strict_equals_trans (a b c : value) :
  strict_equals a b = true → strict_equals b c = strict_equals a c.
Proof.
  destruct a as [[]|], b as [[]|]; simpl; try done;
    rewrite bool_decide_eq_true; by intros ->.
Qed.

Lemma same_date_has_date (d : string) (a b : json) :
  same_date a b = true → has_date d a = has_date d b.
Proof. intros H. unfold has_date. symmetry. by apply strict_equals_trans. Qed.

Lemma has_date_same_date (d : string) (a b : json) :
  has_date d a = true → has_date d b = true → same_date a b = true.
Proof.
  unfold has_date, same_date. rewrite !strict_equals_str. intros -> ->.
  simpl. by rewrite bool_decide_eq_true.
Qed.

Lemma count_date_app (d : string) (l1 l2 : list json) :
  count_date d (l1 ++ l2) = count_date d l1 + count_date d l2.
Proof. induction l1 as [|x l1 IH]; simpl; [done|]. rewrite IH. lia. Qed.

Lemma count_date_insert (d : string) (items : list json) (i : nat) (x y : json) :
  items !! i = Some x → has_date d y = has_date d x →
  count_date d (<[i := y]> items) = count_date d items.
Proof.
  revert i. induction items as [|z items IH]; intros [|i]; simpl; try done.
  - by intros [= ->] ->.
  - intros Hi Hd. by rewrite (IH i).
Qed.

Lemma count_date_zero (d : string) (items : list json) :
  Forall (λ s, has_date d s = false) items → count_date d items = 0.
Proof. induction 1 as [|x l Hx _ IH]; simpl; [done|]. by rewrite Hx, IH. Qed.

Lemma count_date_pos (d : string) (items : list json) (s : json) :
  s ∈ items → has_date d s = true → 1 ≤ count_date d items.
Proof.
  induction 1 as [x l|x y l _ IH]; simpl; intros Hd.
  - rewrite Hd. lia.
  - specialize (IH Hd). lia.
Qed.

Lemma has_date_true (d : string) (s : json) :
  has_date d s = true ↔ prop_of "date" s = Some (JStr d).
Proof. apply strict_equals_str. Qed.

Lemma count_date_not_in (d : string) (items : list json) :
  d ∉ string_dates items → count_date d items = 0.
Proof.
  induction items as [|s items IH]; simpl; [done|].
  destruct (has_date d s) eqn:Hd.
  - apply has_date_true in Hd. rewrite Hd. intros []. by left.
  - intros Hnot. apply IH. intros Hin. apply Hnot.
    destruct (prop_of "date" s) as [[]|]; try done. by right.
Qed.

(** At most one record per date: the calendar dates of the records are
    pairwise distinct. *)
Lemma one_record_per_date_NoDup (items : list json) :
  NoDup (string_dates items) ↔ one_record_per_date items.
Proof.
  split.
  - intros Hnodup d. induction items as [|s items IH]; simpl; [lia|].
    simpl in Hnodup. destruct (has_date d s) eqn:Hd.
    + apply has_date_true in Hd. rewrite Hd in Hnodup.
      apply NoDup_cons in Hnodup as [Hnot _].
      rewrite count_date_not_in by done. lia.
    + simpl. apply IH. destruct (prop_of "date" s) as [[]|]; try done.
      by apply NoDup_cons in Hnodup as [_ ?].
  - induction items as [|s items IH]; simpl; intros Hone; [constructor|].
    assert (Hrest : one_record_per_date items).
    { intros d. specialize (Hone d). simpl in Hone. lia. }
    destruct (prop_of "date" s) as [[| | |d| |]|] eqn:Hs; try by apply IH.
    apply NoDup_cons. split; [|by apply IH].
    intros Hin. specialize (Hone d). simpl in Hone.
    rewrite (proj2 (has_date_true d s) Hs) in Hone.
    assert (1 ≤ count_date d items); [|lia].
    clear -Hin. induction items as [|x items IH]; simpl in *; [by apply elem_of_nil in Hin|].
    destruct (has_date d x) eqn:Hx; [lia|].
    destruct (prop_of "date" x) as [[| | |d'| |]|] eqn:Hpx;
      try (specialize (IH Hin); lia).
    apply elem_of_cons in Hin as [->|Hin]; [|specialize (IH Hin); lia].
    rewrite (proj2 (has_date_true d' x) Hpx) in Hx. done.
Qed.

(** An upsert keeps the number of records of every date when it replaces,
    and appends only a record whose date no record has. *)
Lemma upsert_one_record_per_date (record : json) (items : list json) :
  one_record_per_date items → one_record_per_date (upsert record items).
Proof.
  intros Hinv d. unfold upsert.
  destruct (list_find _ items) as [[i s]|] eqn:Hfind.
  - apply list_find_Some in Hfind as (Hi & Hsame & _).
    rewrite (count_date_insert d items i s); [done..|].
    symmetry. by apply same_date_has_date.
  - rewrite count_date_app. simpl.
    destruct (has_date d record) eqn:Hd; [|specialize (Hinv d); lia].
    rewrite count_date_zero; [lia|].
    apply list_find_None in Hfind. eapply Forall_impl; [exact Hfind|].
    intros s Hs. simpl in Hs. destruct (has_date d s) eqn:Hds; [|done].
    destruct Hs. by apply (has_date_same_date d).
Qed.

Lemma upsert_elem (record : json) (items : list json) :
  record ∈ upsert record items.
Proof.
  unfold upsert. destruct (list_find _ items) as [[i s]|] eqn:Hfind.
  - apply list_find_Some in Hfind as (Hi & _ & _).
    apply list_elem_of_lookup. exists i.
    apply list_lookup_insert_eq. by eapply lookup_lt_Some.
  - apply elem_of_app. right. by left.
Qed.

Lemma upsert_keeps (x record : json) (items : list json) :
  x ∈ items → same_date x record = false → x ∈ upsert record items.
Proof.
  intros Hx Hdiff. unfold upsert.
  destruct (list_find _ items) as [[i s]|] eqn:Hfind.
  - apply list_find_Some in Hfind as (Hi & Hsame & _).
    apply list_elem_of_lookup in Hx as [j Hj].
    apply list_elem_of_lookup. exists j.
    rewrite list_lookup_insert_ne; [done|].
    intros ->. rewrite Hi in Hj. injection Hj as ->. congruence.
  - apply elem_of_app. by left.
Qed.

Lemma upsert_records (record : gmap string json) (items : list json) :
  forallb is_record items = true →
  forallb is_record (upsert (JObj record) items) = true.
Proof.
  rewrite !forallb_forall. intros Hrec x Hx%list_elem_of_In.
  unfold upsert in Hx. destruct (list_find _ items) as [[i s]|].
  - apply list_elem_of_lookup in Hx as [j Hj].
    apply list_lookup_insert_Some in Hj as [(_ & <- & _)|(_ & Hj)]; [done|].
    apply Hrec, list_elem_of_In. by eapply list_elem_of_lookup_2.
  - apply elem_of_app in Hx as [Hx|Hx%list_elem_of_singleton].
    + by apply Hrec, list_elem_of_In.
    + by subst.
Qed.

Lemma findIndex_same_date (record : gmap string json) (items : list json) :
  forallb is_record items = true →
  findIndex (same_date_as (JObj record)) items =
    Ok (fst <$> list_find (λ s, same_date s (JObj record) = true) items).
Proof.
  intros Hrec. apply (findIndex_list_find _ (λ s, same_date s (JObj record))).
  apply Forall_forall. intros s Hs. unfold same_date_as.
  rewrite get_record; [done|].
  rewrite forallb_forall in Hrec. by apply Hrec, list_elem_of_In.
Qed.

(** An upsert of a record into a collection of records answers with the
    record and stores the collection updated by [upsert]. *)
Lemma post_daily_stats_eval (w : world) (items : list json) (record : gmap string json) :
  collection DAILY_STATS_FILE w = Ok (JArr items) →
  forallb is_record items = true →
  ∃ w', post_daily_stats (JObj record) w = (Ok (res_json (Some (JObj record))), w')
        ∧ collection DAILY_STATS_FILE w' = Ok (JArr (upsert (JObj record) items)).
Proof.
  intros (w1 & Hread & Hstored & _ & _)%collection_read Hrec.
  eexists. split.
  - unfold post_daily_stats, try_catch, bind at 1. rewrite Hread.
    unfold bind at 1, lift, as_array. unfold bind at 1.
    rewrite findIndex_same_date by done.
    unfold bind, ret.
    rewrite writeJsonFile_writable by by eapply writable_stored. done.
  - apply collection_stored. simpl. rewrite lookup_insert_eq. unfold upsert.
    by destruct (list_find _ items) as [[i s]|].
Qed.

(** C7, as amended. Posting a record to a daily-stats collection of
    records answers with the record. If some record has the same date, the
    first of them is replaced by the posted record, the others stay, and
    the number of records of every date is as before; if none has, the
    record is appended. Either way exactly one record has the posted date
    whenever at most one had it before, and two posts with different dates
    leave both records in the collection. *)
Theorem daily_stats_upsert_replaces_or_appends (w : world) (items : list json) (record : gmap string json) :
  collection DAILY_STATS_FILE w = Ok (JArr items) →
  forallb is_record items = true →
  ∃ w' items',
    post_daily_stats (JObj record) w = (Ok (res_json (Some (JObj record))), w')
    ∧ collection DAILY_STATS_FILE w' = Ok (JArr items')
    ∧ ((∃ s, s ∈ items ∧ same_date s (JObj record) = true) →
         ∃ i s, items !! i = Some s ∧ same_date s (JObj record) = true
                ∧ (∀ j s', j < i → items !! j = Some s' →
                     same_date s' (JObj record) = false)
                ∧ items' = <[i := JObj record]> items
                ∧ ∀ d, count_date d items' = count_date d items)
    ∧ ((∀ s, s ∈ items → same_date s (JObj record) = false) →
         items' = items ++ [JObj record])
    ∧ (∀ d, record !! "date" = Some (JStr d) → count_date d items ≤ 1 →
         count_date d items' = 1)
    ∧ (∀ record2, same_date (JObj record) (JObj record2) = false →
         ∃ w'' items'',
           post_daily_stats (JObj record2) w' = (Ok (res_json (Some (JObj record2))), w'')
           ∧ collection DAILY_STATS_FILE w'' = Ok (JArr items'')
           ∧ JObj record ∈ items'' ∧ JObj record2 ∈ items'').
Proof.
  intros Hcoll Hrec.
  destruct (post_daily_stats_eval w items record Hcoll Hrec) as (w' & Hpost & Hcoll').
  exists w', (upsert (JObj record) items). split; [done|]. split; [done|].
  split; [|split; [|split]].
  - intros (s & Hs & Hsame).
    destruct (list_find_elem_of (λ s, same_date s (JObj record) = true) items s Hs Hsame)
      as [[i s0] Hfind].
    unfold upsert. rewrite Hfind.
    apply list_find_Some in Hfind as (Hi & Hsame0 & Hfirst).
    exists i, s0. split; [done|]. split; [done|].
    split; [intros j s' Hj Hs'; by apply not_true_is_false, (Hfirst j)|].
    split; [done|].
    intros d. apply (count_date_insert d items i s0); [done|].
    symmetry. by apply same_date_has_date.
  - intros Hnone. unfold upsert.
    assert (list_find (λ s, same_date s (JObj record) = true) items = None) as ->; [|done].
    apply list_find_None, Forall_forall. intros s Hs. by rewrite Hnone.
  - intros d Hd Hle.
    assert (Hhas : has_date d (JObj record) = true).
    { unfold has_date. simpl. rewrite Hd. simpl. by rewrite bool_decide_eq_true. }
    unfold upsert. destruct (list_find _ items) as [[i s]|] eqn:Hfind.
    + apply list_find_Some in Hfind as (Hi & Hsame & _).
      rewrite (count_date_insert d items i s); [|done|symmetry; by apply same_date_has_date].
      assert (1 ≤ count_date d items); [|lia].
      apply (count_date_pos d items s); [by eapply list_elem_of_lookup_2|].
      by rewrite (same_date_has_date d s (JObj record)).
    + rewrite count_date_app. simpl. rewrite Hhas.
      rewrite count_date_zero; [done|].
      apply list_find_None in Hfind. eapply Forall_impl; [exact Hfind|].
      intros s Hs. simpl in Hs. destruct (has_date d s) eqn:Hds; [|done].
      destruct Hs. by apply (has_date_same_date d).
  - intros record2 Hdiff.
    destruct (post_daily_stats_eval w' (upsert (JObj record) items) record2 Hcoll')
      as (w'' & Hpost2 & Hcoll''); [by apply upsert_records|].
    exists w'', (upsert (JObj record2) (upsert (JObj record) items)).
    split; [done|]. split; [done|]. split; [|apply upsert_elem].
    apply upsert_keeps; [apply upsert_elem|done].
Qed.

(** C7, as stated, fails: from a collection that already holds two records
    of one date, posting a record of that date replaces the first of them
    and leaves two records of the date. *)
Lemma daily_stats_upsert_keeps_old_duplicate :
  ¬ (∀ (w : world) (items : list json) (record : gmap string json) (d : string),
       collection DAILY_STATS_FILE w = Ok (JArr items) →
       forallb is_record items = true →
       record !! "date" = Some (JStr d) →
       (∃ s, s ∈ items ∧ has_date d s = true) →
       ∃ items',
         collection DAILY_STATS_FILE (snd (post_daily_stats (JObj record) w)) = Ok (JArr items')
         ∧ count_date d items' = 1).
Proof.
  intros Hclaim.
  pose (r1 := object [("date", JStr "2024-01-01"); ("cars", JNum 1)]).
  pose (r2 := object [("date", JStr "2024-01-01"); ("cars", JNum 2)]).
  pose (w := World {[DAILY_STATS_FILE := Regular (Serialized (JArr [r1; r2]))]} None).
  destruct (Hclaim w [r1; r2]
              (list_to_map [("date", JStr "2024-01-01"); ("cars", JNum 3)])
              "2024-01-01")
    as (items' & Hcoll & Hcount); [by vm_compute..| |].
  { exists r1. split; [by left|by vm_compute]. }
  vm_compute in Hcoll. injection Hcoll as <-.
  vm_compute in Hcount. discriminate Hcount.
Qed.

(** ** Login *)

Lemma post_login_without_credentials (w : world) (settings req_body : json) :
  files w !! SETTINGS_FILE = Some (Regular (Serialized settings)) →
  prop_of "credentials" settings = None →
  post_login req_body w = (Ok server_error, w).
Proof.
  intros Hf Hc. unfold post_login, try_catch, bind at 1, lift, ret.
  destruct (get (Some req_body) "username") as [username|e]; [|done].
  unfold bind at 1.
  destruct (get (Some req_body) "password") as [password|e]; [|done].
  unfold bind at 1. rewrite (readJsonFile_stored _ _ settings) by done.
  unfold bind.
  destruct settings; simpl in *; try done. by rewrite Hc.
Qed.

(** C10. When the stored settings document has no [credentials], the
    login answers 500 'Server error' whatever the request body is, hence
    never 401 'Invalid credentials'; and replacing the settings by a
    document without [credentials] leads to such a state. *)
Theorem login_without_credentials (w : world) (settings : gmap string json) (req_body : json) :
  settings !! "credentials" = None →
  (files w !! SETTINGS_FILE = Some (Regular (Serialized (JObj settings))) →
     post_login req_body w = (Ok server_error, w))
  ∧ (writable w SETTINGS_FILE = true →
       fst (put_settings (JObj settings) w) = Ok (res_json (Some (JObj settings)))
       ∧ fst (post_login req_body (snd (put_settings (JObj settings) w))) = Ok server_error)
  ∧ server_error ≠ invalid_credentials.
Proof.
  intros Hc. split; [|split].
  - intros Hf. by apply (post_login_without_credentials w (JObj settings)).
  - intros Hw. unfold put_settings, try_catch, bind.
    rewrite writeJsonFile_writable by done. simpl. split; [done|].
    rewrite (post_login_without_credentials _ (JObj settings)); [done| |done].
    simpl. by rewrite lookup_insert_eq.
  - discriminate.
Qed.

(** ** The date invariant along the API *)

Lemma stats_invariant_files (w : world) :
  stats_invariant w ↔
  ∀ items, files w !! DAILY_STATS_FILE = Some (Regular (Serialized (JArr items))) →
           one_record_per_date items.
Proof.
  unfold stats_invariant. split.
  - intros Hinv items Hf. by apply Hinv, collection_stored.
  - intros Hinv items Hc. unfold collection in Hc.
    destruct (files w !! DAILY_STATS_FILE) as [[[j|msg]|c]|] eqn:Hf.
    + rewrite (readJsonFile_stored _ _ j) in Hc by done. injection Hc as ->. by apply Hinv.
    + by rewrite (readJsonFile_garbage _ _ msg) in Hc.
    + by rewrite (readJsonFile_faulty _ _ c) in Hc.
    + rewrite readJsonFile_missing in Hc by done. injection Hc as <-. intros d. simpl. lia.
Qed.

Section Keeps.
Context {A B : Type}.

Lemma keeps_ret (a : A) : keeps (ret a).
Proof. by intros w. Qed.

Lemma keeps_throw (e : error) : keeps (@throw A e).
Proof. by intros w. Qed.

Lemma keeps_lift (r : result A) : keeps (lift r).
Proof. by intros w. Qed.

Lemma keeps_bind (m : M A) (k : A → M B) :
  keeps m → (∀ a, keeps (k a)) → keeps (bind m k).
Proof.
  intros Hm Hk w Hw. specialize (Hm w Hw). unfold bind.
  destruct (m w) as [[a|e] w']; [by apply Hk|done].
Qed.

Lemma keeps_bind_lift (r : result A) (k : A → M B) :
  (∀ a, r = Ok a → keeps (k a)) → keeps (bind (lift r) k).
Proof.
  intros Hk w Hw. unfold bind, lift. destruct r as [a|e]; [by apply Hk|done].
Qed.

Lemma keeps_try_catch (m : M A) (handler : error → M A) :
  keeps m → (∀ e, keeps (handler e)) → keeps (try_catch m handler).
Proof.
  intros Hm Hh w Hw. specialize (Hm w Hw). unfold try_catch.
  destruct (m w) as [[a|e] w']; [done|by apply Hh].
Qed.
End Keeps.

Lemma stats_ok_nil : stats_ok (JArr []).
Proof. intros items [= <-] d. simpl. lia. Qed.

Lemma keeps_writeJsonFile (filePath : string) (j : json) :
  (filePath = DAILY_STATS_FILE → stats_ok j) → keeps (writeJsonFile filePath j).
Proof.
  intros Hj w [Hstats Hremote].
  assert (Hgoal : dates_invariant
            (World (<[filePath := Regular (Serialized j)]> (files w)) (supabase w))).
  { split; [|done]. apply stats_invariant_files. intros items. simpl.
    destruct (decide (filePath = DAILY_STATS_FILE)) as [->|Hne].
    - rewrite lookup_insert_eq. intros [= ->]. by apply Hj.
    - rewrite lookup_insert_ne by done. by apply stats_invariant_files. }
  unfold writeJsonFile, fs_writeFile, JSON_stringify.
  by destruct (files w !! filePath) as [[t|c]|].
Qed.

Lemma keeps_fs_readFile (filePath : string) : keeps (fs_readFile filePath).
Proof.
  intros w Hw. unfold fs_readFile. by destruct (files w !! filePath) as [[t|c]|].
Qed.

Lemma keeps_readJsonFile (filePath : string) (defaultValue : json) :
  (filePath = DAILY_STATS_FILE → stats_ok defaultValue) →
  keeps (readJsonFile filePath defaultValue).
Proof.
  intros Hd. unfold readJsonFile. apply keeps_try_catch.
  - apply keeps_bind; [apply keeps_fs_readFile|]. intros t. apply keeps_lift.
  - intros e. case_bool_decide; [|apply keeps_throw].
    apply keeps_bind; [by apply keeps_writeJsonFile|]. intros _. apply keeps_ret.
Qed.

Lemma keeps_when_truthy (filePath : string) (v : value) :
  (filePath = DAILY_STATS_FILE → ∀ j, v = Some j → stats_ok j) →
  keeps (when_truthy v (writeJsonFile filePath)).
Proof.
  intros Hv. unfold when_truthy. destruct v as [j|]; [|apply keeps_ret].
  destruct (truthy (Some j)); [|apply keeps_ret].
  apply keeps_writeJsonFile. intros Hp. by apply Hv.
Qed.

Lemma keeps_upload (backupData : json) :
  snapshot_respects_dates backupData → keeps (uploadBackupToSupabase backupData).
Proof.
  intros Hsnap w [Hstats Hremote].
  unfold uploadBackupToSupabase, try_catch, bind, storage_upload, ret, throw.
  destruct (supabase w) as [b|] eqn:Hs; [|by split].
  destruct (outage b) eqn:Ho; simpl; [by split|].
  split.
  { apply stats_invariant_files. simpl. by apply stats_invariant_files. }
  intros b' j [= <-]. simpl.
  rewrite lookup_insert_eq. unfold JSON_stringify. by intros [= <-].
Qed.

Lemma download_ok_inv (w w' : world) (down : mirror_result) (j : json) :
  downloadBackupFromSupabase w = (Ok down, w') → ok down = true → data down = Some j →
  ∃ b, supabase w = Some b ∧ objects b !! "backup.json" = Some (Serialized j).
Proof.
  unfold downloadBackupFromSupabase, try_catch, bind, storage_download, lift, ret, throw.
  destruct (supabase w) as [b|]; [|by intros [= <- _]].
  destruct (outage b) as [msg|]; simpl.
  - destruct (_ && _); simpl; intros [= <- _]; simpl; done.
  - destruct (objects b !! "backup.json") as [[j'|msg]|] eqn:Hobj; simpl;
      try destruct (_ && _); simpl; intros [= <- _]; simpl; try done.
    intros _ [= ->]. by exists b.
Qed.

Lemma keeps_bind_download {B} (k : mirror_result → M B) :
  (∀ down, (∀ j, ok down = true → data down = Some j → snapshot_respects_dates j) →
           keeps (k down)) →
  keeps (bind downloadBackupFromSupabase k).
Proof.
  intros Hk w Hw. unfold bind. destruct (download_total w) as [down Hd]. rewrite Hd.
  apply Hk; [|done]. intros j Hok Hdata.
  destruct (download_ok_inv _ _ _ _ Hd Hok Hdata) as (b & Hs & Hobj).
  by apply (proj2 Hw b).
Qed.

Lemma keeps_bind_read_stats {B} (k : json → M B) :
  (∀ stats, stats_ok stats → keeps (k stats)) →
  keeps (bind (readJsonFile DAILY_STATS_FILE (JArr [])) k).
Proof.
  intros Hk w Hw. unfold bind.
  assert (Hread := keeps_readJsonFile DAILY_STATS_FILE (JArr []) (λ _, stats_ok_nil) w Hw).
  destruct (readJsonFile DAILY_STATS_FILE (JArr []) w) as [[stats|e] w1] eqn:Hr; [|done].
  apply Hk; [|done]. intros items ->.
  apply (proj1 Hw). unfold collection. by rewrite Hr.
Qed.

Lemma get_Ok (x : json) (k : string) (v : value) :
  get (Some x) k = Ok v → v = prop_of k x.
Proof. destruct x; simpl; congruence. Qed.

Lemma same_date_as_Ok (req_body s : json) (b : bool) :
  same_date_as req_body s = Ok b → b = same_date s req_body.
Proof.
  unfold same_date_as, and_then, same_date.
  destruct (get (Some s) "date") as [sd|] eqn:Hs; [|done].
  destruct (get (Some req_body) "date") as [bd|] eqn:Hb; [|done].
  apply get_Ok in Hs, Hb. by intros [= <-]; subst.
Qed.

Lemma upsert_cons_ne (record x : json) (items : list json) :
  same_date x record = false → upsert record (x :: items) = x :: upsert record items.
Proof.
  intros Hx. unfold upsert. simpl. rewrite decide_False by by rewrite Hx.
  by destruct (list_find _ items) as [[i s]|].
Qed.

(** Whenever the scan of the upsert does not throw, the collection it
    leads to is [upsert] of the collection: this holds for elements and
    bodies of any shape. *)
Lemma findIndex_same_date_as_upsert (req_body : json) (items : list json)
    (existingIndex : option nat) :
  findIndex (same_date_as req_body) items = Ok existingIndex →
  match existingIndex with
  | Some i => <[i := req_body]> items
  | None => items ++ [req_body]
  end = upsert req_body items.
Proof.
  revert existingIndex. induction items as [|x items IH]; intros idx; simpl.
  - by intros [= <-].
  - destruct (same_date_as req_body x) as [[|]|] eqn:Hx; [| |done].
    + apply same_date_as_Ok in Hx. intros [= <-].
      unfold upsert. simpl. by rewrite decide_True.
    + apply same_date_as_Ok in Hx.
      destruct (findIndex (same_date_as req_body) items) as [[i|]|] eqn:Hfind; [| |done].
      * intros [= <-]. rewrite upsert_cons_ne by done. simpl. f_equal. by apply (IH (Some i)).
      * intros [= <-]. rewrite upsert_cons_ne by done. simpl. f_equal. by apply (IH None).
Qed.

(** The side condition of a write to another file than the daily stats. *)
Ltac other_file :=
  let H := fresh in
  intros H; vm_compute in H; discriminate H.

Ltac keeps_step :=
  first
    [ apply keeps_ret
    | apply keeps_throw
    | apply keeps_lift
    | apply keeps_readJsonFile; first [other_file | intros _; apply stats_ok_nil]
    | apply keeps_writeJsonFile; other_file
    | apply keeps_when_truthy; other_file
    | apply keeps_try_catch; [|intros ?]
    | apply keeps_bind_lift; intros ? ?
    | apply keeps_bind; [|intros ?]
    | match goal with |- keeps (match ?x with _ => _ end) => destruct x end
    | match goal with |- keeps (if ?x then _ else _) => destruct x end ].

Ltac keeps_auto := repeat keeps_step.

Lemma keeps_post_daily_stats (req_body : json) : keeps (post_daily_stats req_body).
Proof.
  unfold post_daily_stats. apply keeps_try_catch; [|keeps_auto].
  apply keeps_bind_read_stats. intros stats Hstats.
  apply keeps_bind_lift. intros items Hitems.
  apply keeps_bind_lift. intros existingIndex Hfind.
  apply keeps_bind; [|keeps_auto].
  apply keeps_writeJsonFile. intros _ items' [= <-].
  rewrite (findIndex_same_date_as_upsert _ _ _ Hfind).
  apply upsert_one_record_per_date, Hstats.
  by destruct stats; simplify_eq/=.
Qed.

Lemma keeps_post_backup (req_body : json) :
  snapshot_respects_dates req_body → keeps (post_backup req_body).
Proof.
  intros Hsnap. unfold post_backup. keeps_auto.
  - match goal with H : get _ "dailyStats" = _ |- _ => apply get_Ok in H end.
    apply keeps_when_truthy. intros _ j ->. by apply Hsnap.
  - by apply keeps_upload.
Qed.

Lemma keeps_startServer : keeps startServer.
Proof.
  unfold startServer. apply keeps_try_catch; [|keeps_auto].
  apply keeps_bind_download. intros down Hdown.
  destruct (data down) as [b|] eqn:Hdata; [|keeps_auto].
  destruct (ok down) eqn:Hok; cbn [andb]; [|keeps_auto].
  destruct (truthy (Some b)); keeps_auto.
  match goal with H : get _ "dailyStats" = _ |- _ => apply get_Ok in H end.
  apply keeps_when_truthy. intros _ j ->. by apply (Hdown b).
Qed.

Lemma keeps_handle (r : request) :
  event_respects_dates (Call r) → keeps (handle r).
Proof.
  destruct r; simpl; intros Hr.
  all: try (by apply keeps_post_daily_stats).
  all: try (by apply keeps_post_backup).
  - unfold post_login. keeps_auto.
  - unfold get_vehicles. keeps_auto.
  - unfold post_vehicles. keeps_auto.
  - unfold put_vehicle_exit. keeps_auto.
  - unfold get_permanent_clients. keeps_auto.
  - unfold post_permanent_clients. keeps_auto.
  - unfold put_permanent_client. keeps_auto.
  - unfold delete_permanent_client. keeps_auto.
  - unfold get_settings. keeps_auto.
  - unfold put_settings. keeps_auto.
  - unfold get_daily_stats. keeps_auto.
  - unfold get_health. keeps_auto.
  - unfold get_backup. apply keeps_try_catch; [|keeps_auto].
    apply keeps_bind_download. intros down _. destruct (ok down); keeps_auto.
Qed.

Lemma step_keeps_invariant (w : world) (e : event) :
  event_respects_dates e → dates_invariant w → dates_invariant (step w e).
Proof.
  destruct e as [|r]; simpl; intros He Hw.
  - by apply keeps_startServer.
  - by apply keeps_handle.
Qed.

Lemma run_keeps_invariant (events : list event) (w : world) :
  Forall event_respects_dates events → dates_invariant w →
  dates_invariant (run events w).
Proof.
  unfold run. intros Hevents. revert w.
  induction Hevents as [|e events He _ IH]; intros w Hw; [done|].
  simpl. by apply IH, step_keeps_invariant.
Qed.

(** C8, as amended. From a state in which the daily-stats collection and
    the snapshot held by the mirror have at most one record per date,
    every sequence of server starts and API requests whose backup saves
    carry a [dailyStats] with at most one record per date leads to a state
    in which the daily-stats collection has at most one record per date:
    the upsert maintains the invariant by itself, backup save and startup
    restore install the [dailyStats] of the snapshot as it is. *)
Theorem stats_invariant_along_api (events : list event) (w : world) :
  stats_invariant w →
  remote_respects_dates w →
  Forall event_respects_dates events →
  stats_invariant (run events w).
Proof.
  intros Hstats Hremote Hevents.
  by apply (run_keeps_invariant events w Hevents).
Qed.

(** C8, as stated, fails: on a fresh server, one backup save whose
    [dailyStats] holds two records of one date leaves the collection with
    two records of that date. *)
Lemma backup_save_breaks_stats_invariant :
  ¬ (∀ events, stats_invariant (run events (World ∅ None))).
Proof.
  intros Hclaim.
  pose (r1 := object [("date", JStr "2024-01-01"); ("cars", JNum 1)]).
  pose (r2 := object [("date", JStr "2024-01-01"); ("cars", JNum 2)]).
  pose (snapshot := object [("dailyStats", JArr [r1; r2])]).
  specialize (Hclaim [Call (PostBackup snapshot)] [r1; r2]).
  specialize (Hclaim ltac:(by vm_compute) "2024-01-01").
  vm_compute in Hclaim. lia.
Qed.

(** ** The theorems at sample inputs *)

Lemma backup_round_trip_witness :
  ∃ w1 w2,
    post_backup (JObj Sample.snapshot) Sample.fresh =
      (Ok (res_json (Some (backup_saved false))), w1)
    ∧ get_backup w1 = (Ok (res_json (Some (JObj Sample.snapshot))), w2).
Proof. apply backup_round_trip; vm_compute; reflexivity. Defined.

Lemma get_backup_precedence_and_fallback_witness :
  get_backup Sample.mirrored =
    (Ok (res_json (Some (JObj Sample.snapshot))), Sample.mirrored)
  ∧ get_backup Sample.cut_off =
      (Ok (res_json (Some (JObj Sample.older_snapshot))), Sample.cut_off).
Proof.
  split.
  - refine (proj1 (get_backup_precedence_and_fallback Sample.mirrored
                     (MirrorResult true None (Some (JObj Sample.snapshot)) None) _)
                  Sample.snapshot _ _);
      vm_compute; reflexivity.
  - refine (proj1 (proj2 (get_backup_precedence_and_fallback Sample.cut_off
                            (MirrorResult false (Some "download_failed") None
                                          (Some "fetch failed")) _) _)
                  Sample.older_snapshot _);
      vm_compute; reflexivity.
Defined.

Lemma post_backup_frame_witness :
  ∃ w',
    post_backup (JObj Sample.snapshot) Sample.cut_off =
      (Ok (res_json (Some (backup_saved false))), w')
    ∧ files w' !! BACKUP_FILE = Some (Regular (JSON_stringify (JObj Sample.snapshot)))
    ∧ files w' !! DAILY_STATS_FILE =
        Some (Regular (JSON_stringify (JArr [Sample.monday; Sample.tuesday]))).
Proof.
  destruct (post_backup_frame Sample.snapshot Sample.cut_off) as (w' & Hpost & Hbackup & Hlive & _).
  - vm_compute. reflexivity.
  - exists w'. split; [exact Hpost|]. split; [exact Hbackup|].
    rewrite (Hlive "dailyStats" DAILY_STATS_FILE).
    + vm_compute. reflexivity.
    + unfold live_documents. do 3 right. left.
Defined.

Lemma mirror_disabled_without_credentials_witness :
  supabase Sample.fresh = None
  ∧ uploadBackupToSupabase (JObj Sample.snapshot) Sample.fresh =
      (Ok not_configured_result, Sample.fresh)
  ∧ downloadBackupFromSupabase Sample.fresh = (Ok not_configured_result, Sample.fresh).
Proof.
  split; [reflexivity|].
  destruct (mirror_disabled_without_credentials (JObj Sample.snapshot) Sample.fresh eq_refl)
    as (Hup & Hdown & _).
  split; [exact Hup|exact Hdown].
Defined.

Lemma readJsonFile_materializes_default_witness :
  ∃ w', readJsonFile SETTINGS_FILE defaultSettings Sample.fresh = (Ok defaultSettings, w')
        ∧ readJsonFile SETTINGS_FILE (JObj ∅) w' = (Ok defaultSettings, w').
Proof.
  destruct (proj1 (readJsonFile_materializes_default SETTINGS_FILE defaultSettings Sample.fresh))
    as (w' & Hread & _ & _ & Hagain).
  - vm_compute. reflexivity.
  - exists w'. split; [exact Hread|apply Hagain].
Defined.

Lemma vehicle_exit_updates_one_record_witness :
  ∃ new items',
    fst (put_vehicle_exit "1700000000002" (object [("fee", JNum 20)])
           "2024-01-01T11:45:00.000Z" Sample.busy) = Ok (res_json (Some (JObj new)))
    ∧ new !! "exitTime" = Some (JStr "2024-01-01T11:45:00.000Z")
    ∧ new !! "fee" = Some (JNum 20)
    ∧ new !! "plate" = Some (JStr "LEB-77")
    ∧ collection VEHICLES_FILE
        (snd (put_vehicle_exit "1700000000002" (object [("fee", JNum 20)])
                "2024-01-01T11:45:00.000Z" Sample.busy)) = Ok (JArr items')
    ∧ items' !! 0 = Some Sample.car.
Proof.
  destruct (vehicle_exit_updates_one_record Sample.busy [Sample.car; Sample.bike] "1700000000002"
              (list_to_map [("fee", JNum 20)]) "2024-01-01T11:45:00.000Z")
    as [_ Hfound].
  - vm_compute. reflexivity.
  - reflexivity.
  - destruct Hfound as (i & old & new & items' & Hi & Hid & Hexit & Hfee & Hkeep & Hresp
                        & Hcoll & Hlen & Hnew & Hothers).
    + exists Sample.bike. split; [right; left|vm_compute; reflexivity].
    + assert (i = 1) as ->.
      { destruct i as [|[|i]]; [|reflexivity|destruct i; discriminate Hi].
        injection Hi as <-. vm_compute in Hid. discriminate Hid. }
      exists new, items'. split; [exact Hresp|]. split; [exact Hexit|].
      split; [rewrite Hfee; vm_compute; reflexivity|].
      split.
      * rewrite Hkeep by discriminate. injection Hi as <-. vm_compute. reflexivity.
      * split; [exact Hcoll|]. rewrite Hothers by discriminate. reflexivity.
Defined.

Lemma permanent_client_update_merges_witness :
  ∃ new,
    fst (put_permanent_client "1700000000003" (object [("paymentStatus", JStr "paid")])
           Sample.busy) = Ok (res_json (Some (JObj new)))
    ∧ new !! "paymentStatus" = Some (JStr "paid")
    ∧ new !! "name" = Some (JStr "Ali").
Proof.
  destruct (permanent_client_update_merges Sample.busy [Sample.client] "1700000000003"
              (list_to_map [("paymentStatus", JStr "paid")]))
    as [_ Hfound].
  - vm_compute. reflexivity.
  - reflexivity.
  - destruct Hfound as (i & old & new & items' & Hi & _ & Hover & Hkeep & Hresp & _).
    + exists Sample.client. split; [left|vm_compute; reflexivity].
    + assert (i = 0) as ->.
      { destruct i as [|i]; [reflexivity|destruct i; discriminate Hi]. }
      injection Hi as <-.
      exists new. split; [exact Hresp|]. split.
      * apply Hover. vm_compute. reflexivity.
      * rewrite Hkeep; vm_compute; reflexivity.
Defined.

Lemma daily_stats_upsert_replaces_or_appends_witness :
  ∃ w' items',
    post_daily_stats (object [("date", JStr "2024-01-01"); ("cars", JNum 15)]) Sample.busy =
      (Ok (res_json (Some (object [("date", JStr "2024-01-01"); ("cars", JNum 15)]))), w')
    ∧ collection DAILY_STATS_FILE w' = Ok (JArr items')
    ∧ count_date "2024-01-01" items' = 1.
Proof.
  destruct (daily_stats_upsert_replaces_or_appends Sample.busy [Sample.monday]
              (list_to_map [("date", JStr "2024-01-01"); ("cars", JNum 15)]))
    as (w' & items' & Hpost & Hcoll & _ & _ & Hone & _).
  - vm_compute. reflexivity.
  - reflexivity.
  - exists w', items'. split; [exact Hpost|]. split; [exact Hcoll|].
    apply Hone; vm_compute; [reflexivity|constructor].
Defined.

Lemma stats_invariant_along_api_witness :
  stats_invariant
    (run [Start;
          Call (PostDailyStats Sample.monday);
          Call (PostBackup (JObj Sample.older_snapshot));
          Call (PostDailyStats Sample.tuesday);
          Start]
         Sample.mirrored).
Proof.
  assert (Hmonday : one_record_per_date [Sample.monday]).
  { apply one_record_per_date_NoDup. refine (bool_decide_unpack _ _). vm_compute. exact I. }
  assert (Hweek : one_record_per_date [Sample.monday; Sample.tuesday]).
  { apply one_record_per_date_NoDup. refine (bool_decide_unpack _ _). vm_compute. exact I. }
  apply stats_invariant_along_api.
  - apply stats_invariant_files. intros items Hf. vm_compute in Hf. discriminate Hf.
  - intros b j [= <-] Hobj. vm_compute in Hobj. injection Hobj as <-.
    intros stats Hstats. vm_compute in Hstats. injection Hstats as <-.
    intros items [= <-]. exact Hweek.
  - repeat (apply Forall_cons; split); try apply Forall_nil; try exact I.
    intros stats Hstats. vm_compute in Hstats. injection Hstats as <-.
    intros items [= <-]. exact Hmonday.
Defined.

Lemma login_without_credentials_witness :
  Sample.bare_settings !! "credentials" = None
  ∧ fst (post_login (object [("username", JStr "admin"); ("password", JStr "admin123")])
           (snd (put_settings (JObj Sample.bare_settings) Sample.fresh))) = Ok server_error.
Proof.
  split; [vm_compute; reflexivity|].
  refine (proj2 (proj1 (proj2 (login_without_credentials Sample.fresh Sample.bare_settings
                                 (object [("username", JStr "admin");
                                          ("password", JStr "admin123")]) _)) _));
    vm_compute; reflexivity.
Defined.
